(** * diced: order construction and typed-data signing

    A shallow embedding of the order-book client of the repository
    ([packages/order-book/src/requests/order.ts]) and of the attestation
    signer ([packages/signer/src/sign/eip712.ts]), with the properties the
    specification states about them.

    JavaScript values are modelled as the code has them:
    - a [number] is an IEEE 754 binary64 value ([spec_float] with
      precision 53 and maximal exponent 1024), with the correctly rounded
      operations of the standard library's [SpecFloat];
    - a [bigint] is a [Z];
    - a string is a [string] of code units below 256;
    - a promise is its settlement, a [result]: fulfilled with a value or
      rejected with an exception. *)

From Stdlib Require Import ZArith List String Ascii Bool Lia QArith.
From Stdlib Require Import Floats.SpecFloat.
From Stdlib Require Import DecimalString DecimalN DecimalPos.
Import ListNotations.

Local Open Scope string_scope.
Local Open Scope Z_scope.

(** ** Exceptions and settled promises *)

Inductive exn : Type :=
| SyntaxError                 (* BigInt of a string that is no integer literal *)
| RangeError                  (* BigInt of a number that is no integer *)
| Rejected (reason : string). (* a collaborator rejected its promise *)

Inductive result (A : Type) : Type :=
| Ok (a : A)
| Err (e : exn).

Arguments Ok {A} a.
Arguments Err {A} e.

Definition is_ok {A} (r : result A) : bool :=
  match r with Ok _ => true | Err _ => false end.

(** ** Strings of decimal digits *)

Definition is_digit (c : ascii) : bool :=
  let n := N_of_ascii c in ((48 <=? n) && (n <=? 57))%N.

Fixpoint all_digits (s : string) : bool :=
  match s with
  | EmptyString => true
  | String c s' => is_digit c && all_digits s'
  end.

(** A non-empty string of decimal digits: an unsigned integer, with no sign,
    no fraction and no exponent. *)
Definition is_uint_string (s : string) : bool :=
  match s with
  | EmptyString => false
  | _ => all_digits s
  end.

(** Decimal digits of a natural number, as [Number.prototype.toString] and
    [BigInt.prototype.toString] print an integer. *)
Definition N_toString (n : N) : string :=
  NilEmpty.string_of_uint (N.to_uint n).

Fixpoint zeros (n : nat) : string :=
  match n with
  | O => EmptyString
  | S n' => String "0" (zeros n')
  end.

(** [bigint.toString()] *)
Definition BigInt_toString (z : Z) : string :=
  match z with
  | Zneg p => String "-" (N_toString (Npos p))
  | _ => N_toString (Z.to_N z)
  end.

(** ** Numbers *)

Definition number : Type := spec_float.

Module Number.

Definition prec : Z := 53.
Definition emax : Z := 1024.

Definition zero : number := S754_zero false.
Definition NaN : number := S754_nan.
Definition Infinity : number := S754_infinity false.

(** The number nearest to an integer (ties to even). *)
Definition of_Z (z : Z) : number := binary_normalize prec emax z 0 false.

(** The number nearest to the quotient of two integers: what a decimal
    literal such as [0.45] (45 / 100) denotes. *)
Definition of_ratio (a b : Z) : number :=
  match a, b with
  | Zpos p, Zpos q => SFdiv prec emax (S754_finite false p 0) (S754_finite false q 0)
  | Zneg p, Zpos q => SFdiv prec emax (S754_finite true p 0) (S754_finite false q 0)
  | Z0, Zpos _ => S754_zero false
  | _, _ => S754_nan
  end.

(** [x * y] *)
Definition mul (x y : number) : number := SFmul prec emax x y.

(** [x < y] and [x === y] on numbers. *)
Definition ltb (x y : number) : bool := SFltb x y.
Definition strict_eq (x y : number) : bool := SFeqb x y.

(** [10 ** n] for a non-negative integer exponent: the number nearest to
    the power of ten (exact up to [10 ** 22]). *)
Definition pow10 (n : nat) : number := of_Z (10 ^ Z.of_nat n).

(** The exact value of a finite number, as a rational. *)
Definition to_Q (x : number) : option Q :=
  match x with
  | S754_zero _ => Some 0%Q
  | S754_finite s m e =>
      let v := if s then Zneg m else Zpos m in
      Some (if 0 <=? e then inject_Z (Z.shiftl v e)
            else Qmake v (Z.to_pos (2 ^ (- e))))
  | _ => None
  end.

(** A zero or a positive finite number or [+Infinity]: sign bit clear. *)
Definition sign_clear (x : number) : bool :=
  match x with
  | S754_zero s | S754_infinity s | S754_finite s _ _ => negb s
  | S754_nan => false
  end.

(** Not a negative number: sign bit clear, or [NaN]. *)
Definition not_negative (x : number) : bool :=
  match x with
  | S754_nan => true
  | _ => sign_clear x
  end.

(** Finite, and of magnitude below [2 ^ 53]: the range in which every
    integer is a number. *)
Definition below_2_53 (x : number) : bool :=
  match x with
  | S754_zero _ => true
  | S754_finite _ m e => Z.shiftl (Zpos m) e <? 2 ^ 53
  | _ => false
  end.

(** The largest integer not above a finite number. *)
Definition floorZ (s : bool) (m : positive) (e : Z) : Z :=
  Z.shiftl (if s then Zneg m else Zpos m) e.

(** [Math.floor(x)] *)
Definition floor (x : number) : number :=
  match x with
  | S754_finite s m e =>
      if 0 <=? e then x
      else binary_normalize prec emax (floorZ s m e) 0 s
  | _ => x
  end.

(** [Math.round(x)]: the nearest integer, a tie going up. *)
Definition round (x : number) : number :=
  match x with
  | S754_finite s m e =>
      if 0 <=? e then x
      else
        let v := if s then Zneg m else Zpos m in
        binary_normalize prec emax
          (Z.shiftl (2 * v + 2 ^ (- e)) (e - 1)) 0 s
  | _ => x
  end.

(** The integer an integral number is, if it is one. *)
Definition to_integer (x : number) : option Z :=
  match x with
  | S754_zero _ => Some 0
  | S754_finite s m e =>
      let v := if s then Zneg m else Zpos m in
      if 0 <=? e then Some (Z.shiftl v e)
      else if Z.shiftl (Z.shiftl v e) (- e) =? v then Some (Z.shiftl v e)
      else None
  | _ => None
  end.

(** [BigInt(x)] for a number [x]. *)
Definition to_BigInt (x : number) : result Z :=
  match to_integer x with
  | Some z => Ok z
  | None => Err RangeError
  end.

End Number.

(** ** [Number.prototype.toString]

    ECMAScript's Number::toString for radix 10. For a positive finite [x]
    it takes integers [n], [k] and [s] with [k >= 1],
    [10^(k-1) <= s < 10^k], such that [s * 10^(n-k)] rounds to [x], with
    [k] as small as possible (and [s] as near to [x] as possible, an even
    [s] at a tie), and prints the digits of [s] with a point or an exponent
    placed by [n]. *)

Module NumberToString.

Definition pw (b z : Z) : Z := b ^ Z.max z 0.

Definition ndigits (z : Z) : Z :=
  Z.of_nat (String.length (N_toString (Z.to_N z))).

(** The decimal exponent of [x = m * 2^e]: [10^(n-1) <= x < 10^n]. Below
    one, [x] is no power of ten, and the digits of the integer part of
    [1 / x] count its leading zeros. *)
Definition decimal_exponent (m : positive) (e : Z) : Z :=
  if 0 <=? e then ndigits (Z.shiftl (Zpos m) e)
  else if 2 ^ (- e) <=? Zpos m then ndigits (Z.shiftl (Zpos m) e)
  else 1 - ndigits (2 ^ (- e) / Zpos m).

(** [s * 10^a] compared with [c * 2^b], exactly. *)
Definition cmp_scaled (s a c b : Z) : comparison :=
  (s * pw 10 a * pw 2 (- b)) ?= (c * pw 2 b * pw 10 (- a)).

(** Does [s * 10^a] round to [m * 2^e]? It does between the midpoints to
    the neighbouring numbers, the midpoints included when [m] is even.
    The lower neighbour of a power of two is at half the distance. *)
Definition rounds_to (m : positive) (e : Z) (s a : Z) : bool :=
  let even := Z.even (Zpos m) in
  let low := if (Zpos m =? 2 ^ 52) && (-1074 <? e)
             then 4 * Zpos m - 1 else 4 * Zpos m - 2 in
  let high := 4 * Zpos m + 2 in
  match cmp_scaled s a low (e - 2) with
  | Gt => true | Eq => even | Lt => false
  end &&
  match cmp_scaled s a high (e - 2) with
  | Lt => true | Eq => even | Gt => false
  end.

(** The [k]-digit candidate for [x = m * 2^e] of decimal exponent [n0]:
    the nearer of the two multiples of [10^(n0-k)] around [x] that round
    to [x], as a pair [(s, n)]. *)
Definition candidate (m : positive) (e n0 k : Z) : option (Z * Z) :=
  let a := n0 - k in
  let X := Zpos m * pw 2 e * pw 10 (- a) in
  let D := pw 2 (- e) * pw 10 a in
  let sl := X / D in
  let r := X mod D in
  let sh := sl + 1 in
  let pick :=
    if r =? 0 then Some sl
    else
      match rounds_to m e sl a, rounds_to m e sh a with
      | true, true =>
          if 2 * r <? D then Some sl
          else if D <? 2 * r then Some sh
          else if Z.even sl then Some sl else Some sh
      | true, false => Some sl
      | false, true => Some sh
      | false, false => None
      end in
  match pick with
  | Some s => if s =? 10 ^ k then Some (s / 10, n0 + 1) else Some (s, n0)
  | None => None
  end.

(** The shortest candidate: [k] from [k] on, [fuel] lengths tried. Seventeen
    digits always suffice for a binary64 number. *)
Fixpoint shortest (fuel : nat) (m : positive) (e n0 k : Z) : Z * Z * Z :=
  match fuel with
  | O => (Zpos m, 0, k)
  | S fuel' =>
      match candidate m e n0 k with
      | Some (s, n) => (s, n, k)
      | None => shortest fuel' m e n0 (k + 1)
      end
  end.

(** Steps 6 to 12: the digits [ds] of [s] (there are [k]) placed by [n]. *)
Definition place (ds : string) (n k : Z) : string :=
  if (-5 <=? n) && (n <=? 21) then
    if k <=? n then ds ++ zeros (Z.to_nat (n - k))
    else if 0 <? n then
      substring 0 (Z.to_nat n) ds ++ "." ++
      substring (Z.to_nat n) (Z.to_nat (k - n)) ds
    else "0." ++ zeros (Z.to_nat (- n)) ++ ds
  else
    let ex := n - 1 in
    let c := if ex <? 0 then "-" else "+" in
    let mant :=
      if k =? 1 then ds
      else substring 0 1 ds ++ "." ++ substring 1 (Z.to_nat (k - 1)) ds in
    mant ++ "e" ++ c ++ N_toString (Z.to_N (Z.abs ex)).

(** A positive finite number, by the search of step 5. *)
Definition of_positive_search (m : positive) (e : Z) : string :=
  let '(s, n, k) := shortest 17 m e (decimal_exponent m e) 1 in
  place (N_toString (Z.to_N s)) n k.

(** A positive finite number. An integer below [2^53] is its own shortest
    decimal, with at most sixteen digits: step 5 yields its digits up to
    the trailing zeros and step 6 puts these back. *)
Definition of_positive (m : positive) (e : Z) : string :=
  match Number.to_integer (S754_finite false m e) with
  | Some z =>
      if z <? 2 ^ 53 then N_toString (Z.to_N z)
      else of_positive_search m e
  | None => of_positive_search m e
  end.

End NumberToString.

(** [x.toString()] for a number [x]. *)
Definition Number_toString (x : number) : string :=
  match x with
  | S754_nan => "NaN"
  | S754_zero _ => "0"
  | S754_infinity s => if s then "-Infinity" else "Infinity"
  | S754_finite s m e =>
      (if s then "-" else "") ++ NumberToString.of_positive m e
  end.

(** ** Strings *)

(** [s.split(".")]: the segments between the points, at least one. *)
Fixpoint split_dot (s : string) : list string :=
  match s with
  | EmptyString => [EmptyString]
  | String c s' =>
      if Ascii.eqb c "." then EmptyString :: split_dot s'
      else
        match split_dot s' with
        | seg :: segs => String c seg :: segs
        | [] => [String c EmptyString]
        end
  end.

(** White space that [BigInt] skips around a literal, among the code units
    below 256: TAB, LF, VT, FF, CR, SP and NBSP. *)
Definition is_white_space (c : ascii) : bool :=
  let n := N_of_ascii c in
  ((9 <=? n) && (n <=? 13) || (n =? 32) || (n =? 160))%N.

Fixpoint trim_start (s : string) : string :=
  match s with
  | EmptyString => EmptyString
  | String c s' => if is_white_space c then trim_start s' else s
  end.

Fixpoint trim_end (s : string) : string :=
  match s with
  | EmptyString => EmptyString
  | String c s' =>
      match trim_end s' with
      | EmptyString => if is_white_space c then EmptyString else String c EmptyString
      | t => String c t
      end
  end.

Definition trim (s : string) : string := trim_end (trim_start s).

(** The value of a digit in a radix up to sixteen. *)
Definition digit_value (c : ascii) : option Z :=
  let n := Z.of_N (N_of_ascii c) in
  if (48 <=? n) && (n <=? 57) then Some (n - 48)
  else if (97 <=? n) && (n <=? 102) then Some (n - 87)
  else if (65 <=? n) && (n <=? 70) then Some (n - 55)
  else None.

Fixpoint radix_digits (radix : Z) (acc : Z) (s : string) : option Z :=
  match s with
  | EmptyString => Some acc
  | String c s' =>
      match digit_value c with
      | Some d => if d <? radix then radix_digits radix (radix * acc + d) s' else None
      | None => None
      end
  end.

(** One or more digits of a radix. *)
Definition radix_literal (radix : Z) (s : string) : option Z :=
  match s with
  | EmptyString => None
  | _ => radix_digits radix 0 s
  end.

(** One or more decimal digits. *)
Definition decimal_literal (s : string) : option Z :=
  match s with
  | EmptyString => None
  | _ => option_map (fun d => Z.of_N (N.of_uint d)) (NilEmpty.uint_of_string s)
  end.

(** [BigInt(s)] for a string [s] (StringToBigInt): white space around the
    literal is skipped; nothing is zero; a literal is decimal digits with
    an optional sign, or binary, octal or hexadecimal digits after [0b],
    [0o] or [0x]; anything else is a SyntaxError. *)
Definition BigInt (s : string) : result Z :=
  let lit :=
    match trim s with
    | EmptyString => Some 0
    | String "0" (String ("x" | "X") rest) => radix_literal 16 rest
    | String "0" (String ("o" | "O") rest) => radix_literal 8 rest
    | String "0" (String ("b" | "B") rest) => radix_literal 2 rest
    | String "+" rest => decimal_literal rest
    | String "-" rest => option_map Z.opp (decimal_literal rest)
    | t => decimal_literal t
    end in
  match lit with
  | Some z => Ok z
  | None => Err SyntaxError
  end.

(** ** Data model of order.ts *)

Definition Hex : Type := string.
Definition TickSize : Type := string.

Inductive OrderSide : Type := BUY | SELL.

Inductive SignatureType : Type := eoa | poly_proxy | poly_gnosis_safe.

Record Order : Type := {
  order_salt : string;
  order_maker : Hex;
  order_signer : Hex;
  order_taker : Hex;
  order_tokenId : string;
  order_makerAmount : string;
  order_takerAmount : string;
  order_expiration : string;
  order_nonce : string;
  order_feeRateBps : string;
  order_side : OrderSide;
  order_signatureType : SignatureType
}.

(** [Order & { signature: string }] *)
Record SignedOrder : Type := {
  signed_order : Order;
  signed_signature : string
}.

(** [Hex | "public"] *)
Inductive Taker : Type :=
| public
| address (a : Hex).

Record CreateOrderParams : Type := {
  params_tokenId : string;
  params_price : number;
  params_side : OrderSide;
  params_size : number;
  params_expiration : number;
  params_taker : Taker
}.

(** The pair of raw amounts [calculateOrderAmounts] returns. *)
Record OrderAmounts : Type := {
  amounts_maker : string;
  amounts_taker : string
}.

(** viem's [zeroAddress]. *)
Definition zeroAddress : Hex := "0x0000000000000000000000000000000000000000".

(** Modelled from the spec: contract.ts, which declares [ContractConfig] and
    the two registry entries [POLYGON_CONTRACTS] and
    [POLYGON_AMOY_CONTRACTS], is missing from the sources. An entry holds
    contract addresses; [negRiskExchange] is the one order.ts reads. The
    two entries are parameters of the development. *)
Record ContractConfig : Type := {
  negRiskExchange : Hex
}.

(** ** Typed data handed to the signer *)

(** A JavaScript value in a typed-data structure: what distinguishes a
    string label from an integer code, and a number from a bigint. *)
Inductive value : Type :=
| VString (s : string)
| VNumber (x : number)
| VBigInt (z : Z).

Definition object : Type := list (string * value).

Fixpoint field (name : string) (o : object) : option value :=
  match o with
  | [] => None
  | (k, v) :: o' => if String.eqb k name then Some v else field name o'
  end.

(** The argument of [signTypedData]. [types] gives, for each struct, its
    members as pairs of a name and a wire type. *)
Record TypedData : Type := {
  primaryType : string;
  domain : object;
  types : list (string * list (string * string));
  message : object
}.

Fixpoint wire_type (name : string) (members : list (string * string)) : option string :=
  match members with
  | [] => None
  | (k, t) :: members' => if String.eqb k name then Some t else wire_type name members'
  end.

Definition struct_members (name : string) (td : TypedData) : list (string * string) :=
  match find (fun kv => String.eqb (fst kv) name) (types td) with
  | Some (_, members) => members
  | None => []
  end.

(** The wallet client: its chain, its account, and its signing capability.
    [account.getNonce] is an optional method; when present, a call to it
    settles with a bigint or rejects. *)
Record Wallet : Type := {
  chain_id : number;
  account_address : Hex;
  account_getNonce : option (result Z);
  signTypedData : TypedData -> result string
}.

(** ** Effects: a computation may reject, and it records the typed data it
    hands to the signer. *)

Definition M (A : Type) : Type := list TypedData * result A.

Definition ret {A} (a : A) : M A := ([], Ok a).

Definition bind {A B} (m : M A) (f : A -> M B) : M B :=
  match m with
  | (log, Ok a) => let '(log', r) := f a in ((log ++ log')%list, r)
  | (log, Err e) => (log, Err e)
  end.

Definition lift {A} (r : result A) : M A := ([], r).

Definition signed_data {A} (m : M A) : list TypedData := fst m.
Definition settled {A} (m : M A) : result A := snd m.

Declare Scope effect_scope.
Delimit Scope effect_scope with effect.
Notation "x <- m ;; k" := (bind m (fun x => k))
  (at level 61, m at next level, right associativity) : effect_scope.
Notation "' p <- m ;; k" := (bind m (fun p => k))
  (at level 61, p pattern, m at next level, right associativity) : effect_scope.

(** [wallet.signTypedData(td)] *)
Definition call_signTypedData (wallet : Wallet) (td : TypedData) : M string :=
  ([td], signTypedData wallet td).

(** ** [Promise.all] over the three reads of [createOrder] *)

Inductive slot : Type := TickSizeRead | FeeRateRead | NonceRead.

(** The reason a promise rejected with, if it did. *)
Definition rejection {A} (r : result A) : option exn :=
  match r with Ok _ => None | Err e => Some e end.

(** The rejection of the first slot, in a settling order, that rejected. *)
Fixpoint first_rejection (rejected : slot -> option exn) (l : list slot)
    : option exn :=
  match l with
  | [] => None
  | s :: l' =>
      match rejected s with
      | Some e => Some e
      | None => first_rejection rejected l'
      end
  end.

(** [Promise.all] rejects with the reason of the first promise to reject,
    and fulfils with all the values once every promise has fulfilled. The
    order in which the three reads settle is the environment's: a list of
    slots, the reads it leaves out settling afterwards in argument order. *)
Definition Promise_all3 {A B C} (settle_order : list slot)
    (a : result A) (b : result B) (c : result C) : result (A * B * C) :=
  let rejected (s : slot) : option exn :=
    match s with
    | TickSizeRead => rejection a
    | FeeRateRead => rejection b
    | NonceRead => rejection c
    end in
  match first_rejection rejected
          (settle_order ++ [TickSizeRead; FeeRateRead; NonceRead])%list with
  | Some e => Err e
  | None =>
      match a, b, c with
      | Ok x, Ok y, Ok z => Ok (x, y, z)
      | Err e, _, _ | _, Err e, _ | _, _, Err e => Err e
      end
  end.

(** The market collaborator of [OrderRequests]. *)
Record Market : Type := {
  getTickSize : string -> result TickSize;
  getFeeRateBps : string -> result number
}.

(** What [createOrder] takes from its surroundings: the values of
    [Math.random()] and [Date.now()], and the order in which its reads
    settle. *)
Record Ambient : Type := {
  Math_random : number;
  Date_now : number;
  settle_order : list slot
}.

(** ** order.ts *)

(** Modelled from the spec: [roundTo] of utils.ts is missing from the
    sources. The spec has prices and sizes rounded to a number of decimal
    places, half away from zero: [roundTo_spec x d] is the number nearest to
    that decimal. The calculator below takes its [roundTo] as a parameter;
    this one instantiates it where a concrete value is computed. *)
Definition roundTo_spec (x : number) (decimals : nat) : number :=
  match x with
  | S754_finite s m e =>
      let p := 10 ^ Z.of_nat decimals in
      let n := if 0 <=? e then Z.shiftl (Zpos m) e * p
               else Z.shiftl (2 * Zpos m * p + 2 ^ (- e)) (e - 1) in
      match n with
      | Zpos q =>
          SFdiv Number.prec Number.emax
            (S754_finite s q 0) (S754_finite false (Z.to_pos p) 0)
      | _ => S754_zero s
      end
  | _ => x
  end.

Definition signatureTypeToNumber (signatureType : SignatureType) : Z :=
  match signatureType with
  | eoa => 0
  | poly_proxy => 1
  | poly_gnosis_safe => 2
  end.

Definition orderSideToNumber (side : OrderSide) : Z :=
  match side with BUY => 0 | _ => 1 end.

(** [private generateSalt()]:
    [BigInt(Math.round(Math.random() * Date.now()))] *)
Definition generateSalt (amb : Ambient) : result Z :=
  Number.to_BigInt (Number.round (Number.mul (Math_random amb) (Date_now amb))).

(** [private async getNonce()] *)
Definition getNonce (wallet : Wallet) : result Z :=
  match account_getNonce wallet with
  | Some settled_nonce => settled_nonce
  | None => Ok 0
  end.

(** The members of the two structs in [signOrder]'s [types]. *)
Definition EIP712Domain_members : list (string * string) :=
  [("name", "string"); ("version", "string");
   ("chainId", "uint256"); ("verifyingContract", "address")].

Definition Order_members : list (string * string) :=
  [("salt", "uint256"); ("maker", "address"); ("signer", "address");
   ("taker", "address"); ("tokenId", "uint256");
   ("makerAmount", "uint256"); ("takerAmount", "uint256");
   ("expiration", "uint256"); ("nonce", "uint256");
   ("feeRateBps", "uint256"); ("side", "uint8");
   ("signatureType", "uint8")].

Section OrderRequests.

(** Parameters: the missing [roundTo] and the two registry entries. *)
Variable roundTo : number -> nat -> number.
Variables POLYGON_CONTRACTS POLYGON_AMOY_CONTRACTS : ContractConfig.

Definition getContractForChain (chainId : number) : ContractConfig :=
  if Number.strict_eq chainId (Number.of_Z 137)
  then POLYGON_CONTRACTS else POLYGON_AMOY_CONTRACTS.

(** *** [calculateOrderAmounts] *)

(** [tickSize.split(".")[1]?.length || 0] *)
Definition tickDecimals (tickSize : TickSize) : nat :=
  match nth_error (split_dot tickSize) 1 with
  | Some fraction => String.length fraction
  | None => 0%nat
  end.

Definition sizeDecimals : nat := 2.

Definition amountDecimals (tickSize : TickSize) : nat :=
  (tickDecimals tickSize + sizeDecimals)%nat.

Definition roundedPrice (price : number) (tickSize : TickSize) : number :=
  roundTo price (tickDecimals tickSize).

Definition shares (size : number) : number := roundTo size sizeDecimals.

Definition cost (size price : number) (tickSize : TickSize) : number :=
  roundTo (Number.mul (shares size) (roundedPrice price tickSize))
    (amountDecimals tickSize).

(** [shares * 10 ** sizeDecimals] and [cost * 10 ** amountDecimals] *)
Definition sharesScaled (size : number) : number :=
  Number.mul (shares size) (Number.pow10 sizeDecimals).

Definition costScaled (size price : number) (tickSize : TickSize) : number :=
  Number.mul (cost size price tickSize) (Number.pow10 (amountDecimals tickSize)).

Definition sharesRaw (size : number) : string :=
  Number_toString (Number.floor (sharesScaled size)).

Definition costRaw (size price : number) (tickSize : TickSize) : string :=
  Number_toString (Number.floor (costScaled size price tickSize)).

Definition calculateOrderAmounts
    (side : OrderSide) (size price : number) (tickSize : TickSize)
    : OrderAmounts :=
  match side with
  | BUY =>
      {| amounts_maker := costRaw size price tickSize;
         amounts_taker := sharesRaw size |}
  | _ =>
      {| amounts_maker := sharesRaw size;
         amounts_taker := costRaw size price tickSize |}
  end.

(** *** [signOrder] *)

(** The typed data [signOrder] builds for the signer. Each [BigInt] of a
    string may throw, and then nothing is handed to the signer. *)
Definition orderTypedData (wallet : Wallet) (order : Order) : result TypedData :=
  let contract := getContractForChain (chain_id wallet) in
  match Number.to_BigInt (chain_id wallet) with Err e => Err e | Ok chainId =>
  match BigInt (order_salt order) with Err e => Err e | Ok salt =>
  match BigInt (order_tokenId order) with Err e => Err e | Ok tokenId =>
  match BigInt (order_nonce order) with Err e => Err e | Ok nonce =>
  match BigInt (order_feeRateBps order) with Err e => Err e | Ok feeRateBps =>
  match BigInt (order_expiration order) with Err e => Err e | Ok expiration =>
  match BigInt (order_makerAmount order) with Err e => Err e | Ok makerAmount =>
  match BigInt (order_takerAmount order) with Err e => Err e | Ok takerAmount =>
  Ok {|
    primaryType := "Order";
    domain :=
      [("name", VString "Polymarket CTF Exchange");
       ("version", VString "1");
       ("chainId", VBigInt chainId);
       ("verifyingContract", VString (negRiskExchange contract))];
    types :=
      [("EIP712Domain", EIP712Domain_members); ("Order", Order_members)];
    message :=
      [("salt", VBigInt salt);
       ("signer", VString (order_signer order));
       ("maker", VString (order_maker order));
       ("taker", VString (order_taker order));
       ("tokenId", VBigInt tokenId);
       ("nonce", VBigInt nonce);
       ("feeRateBps", VBigInt feeRateBps);
       ("expiration", VBigInt expiration);
       ("side", VNumber (Number.of_Z (orderSideToNumber (order_side order))));
       ("signatureType",
        VNumber (Number.of_Z (signatureTypeToNumber (order_signatureType order))));
       ("makerAmount", VBigInt makerAmount);
       ("takerAmount", VBigInt takerAmount)]
  |}
  end end end end end end end end.

Definition signOrder (wallet : Wallet) (order : Order) : M string :=
  (td <- lift (orderTypedData wallet order) ;;
   call_signTypedData wallet td)%effect.

(** *** [createOrder] *)

(** The unsigned order [createOrder] builds from what it has read. *)
Definition buildOrder (wallet : Wallet) (params : CreateOrderParams)
    (tickSize : TickSize) (feeRateBps : number) (nonce salt : Z) : Order :=
  let address := account_address wallet in
  let amounts :=
    calculateOrderAmounts (params_side params) (params_size params)
      (params_price params) tickSize in
  {| order_signer := address;
     order_maker := address;
     order_taker :=
       match params_taker params with
       | public => zeroAddress
       | address a => a
       end;
     order_tokenId := params_tokenId params;
     order_nonce := BigInt_toString nonce;
     order_salt := BigInt_toString salt;
     order_feeRateBps := Number_toString feeRateBps;
     order_expiration := Number_toString (params_expiration params);
     order_side := params_side params;
     order_signatureType := eoa;
     order_makerAmount := amounts_maker amounts;
     order_takerAmount := amounts_taker amounts |}.

Definition createOrder (wallet : Wallet) (market : Market) (amb : Ambient)
    (params : CreateOrderParams) : M SignedOrder :=
  ('(tickSize, feeRateBps, nonce) <-
     lift (Promise_all3 (settle_order amb)
             (getTickSize market (params_tokenId params))
             (getFeeRateBps market (params_tokenId params))
             (getNonce wallet)) ;;
   salt <- lift (generateSalt amb) ;;
   let order := buildOrder wallet params tickSize feeRateBps nonce salt in
   signature <- signOrder wallet order ;;
   ret {| signed_order := order; signed_signature := signature |})%effect.

End OrderRequests.

(** ** signer/src/sign/eip712.ts *)

Definition ClobAuth_members : list (string * string) :=
  [("address", "address"); ("timestamp", "string");
   ("nonce", "uint256"); ("message", "string")].

Definition clobAuthTypedData (signer : Wallet) (timestamp : number) (nonce : Z)
    : TypedData :=
  {| domain :=
       [("name", VString "ClobAuthDomain");
        ("version", VString "1");
        ("chainId", VNumber (chain_id signer))];
     types := [("ClobAuth", ClobAuth_members)];
     primaryType := "ClobAuth";
     message :=
       [("address", VString (account_address signer));
        ("timestamp", VString (Number_toString timestamp));
        ("nonce", VBigInt nonce);
        ("message",
         VString "This message attests that I control the given wallet")] |}.

Definition signClobAuth (signer : Wallet) (timestamp : number) (nonce : Z)
    : M Hex :=
  call_signTypedData signer (clobAuthTypedData signer timestamp nonce).

(** ** Predicates of the specification *)

(** The string fields of an order that the order message carries as
    [uint256]. *)
Definition numeric_fields (o : Order) : list (string * string) :=
  [("salt", order_salt o); ("tokenId", order_tokenId o);
   ("makerAmount", order_makerAmount o); ("takerAmount", order_takerAmount o);
   ("expiration", order_expiration o); ("nonce", order_nonce o);
   ("feeRateBps", order_feeRateBps o)].

(** The data model's orders: every amount and id field is an integer
    string with no sign, fraction or exponent. *)
Definition Order_wf (o : Order) : bool :=
  forallb (fun kv => is_uint_string (snd kv)) (numeric_fields o).

(** A decimal string: digits, then possibly a point and digits. *)
Definition is_decimal_string (s : string) : bool :=
  match split_dot s with
  | [whole] => is_uint_string whole
  | [whole; fraction] => is_uint_string whole && is_uint_string fraction
  | _ => false
  end.

Fixpoint has_dot (s : string) : bool :=
  match s with
  | EmptyString => false
  | String c s' => Ascii.eqb c "." || has_dot s'
  end.

(** [0 < x] *)
Definition positive_number (x : number) : bool := Number.ltb Number.zero x.

(** ** Sample surroundings, for concrete runs *)

Definition sample_polygon_contracts : ContractConfig :=
  {| negRiskExchange := "0x00000000000000000000000000000000000000a1" |}.

Definition sample_amoy_contracts : ContractConfig :=
  {| negRiskExchange := "0x00000000000000000000000000000000000000a2" |}.

Definition sample_signer (td : TypedData) : result string := Ok "0x5167".

Definition polygon_wallet : Wallet :=
  {| chain_id := Number.of_Z 137;
     account_address := "0x00000000000000000000000000000000000000e1";
     account_getNonce := Some (Ok 7);
     signTypedData := sample_signer |}.

Definition amoy_wallet : Wallet :=
  {| chain_id := Number.of_Z 80002;
     account_address := "0x00000000000000000000000000000000000000e2";
     account_getNonce := None;
     signTypedData := sample_signer |}.

Definition sample_market : Market :=
  {| getTickSize := fun _ => Ok "0.01";
     getFeeRateBps := fun _ => Ok Number.zero |}.

Definition failing_market : Market :=
  {| getTickSize := fun _ => Ok "0.01";
     getFeeRateBps := fun _ => Err (Rejected "fee rate unavailable") |}.

Definition sample_ambient : Ambient :=
  {| Math_random := Number.of_ratio 1 3;
     Date_now := Number.of_Z 1700000000000;
     settle_order := [NonceRead; TickSizeRead; FeeRateRead] |}.

(** Price 0.45, size 100, as in the specification's worked case. *)
Definition sample_params : CreateOrderParams :=
  {| params_tokenId := "1234";
     params_price := Number.of_ratio 45 100;
     params_side := BUY;
     params_size := Number.of_Z 100;
     params_expiration := Number.zero;
     params_taker := public |}.

Definition zero_taker_params : CreateOrderParams :=
  {| params_tokenId := "1234";
     params_price := Number.of_ratio 45 100;
     params_side := SELL;
     params_size := Number.of_Z 100;
     params_expiration := Number.zero;
     params_taker := address zeroAddress |}.

Definition sample_order : Order :=
  {| order_salt := "566666666667";
     order_maker := "0x00000000000000000000000000000000000000e1";
     order_signer := "0x00000000000000000000000000000000000000e1";
     order_taker := zeroAddress;
     order_tokenId := "1234";
     order_makerAmount := "450000";
     order_takerAmount := "10000";
     order_expiration := "0";
     order_nonce := "7";
     order_feeRateBps := "0";
     order_side := BUY;
     order_signatureType := eoa |}.

(** ** Splitting and joining strings *)

(** [s.split(c)] for a separator of one character, and [parts.join(c)]. *)
Fixpoint split_char (sep : ascii) (s : string) : list string :=
  match s with
  | EmptyString => [EmptyString]
  | String c s' =>
      if Ascii.eqb c sep then EmptyString :: split_char sep s'
      else
        match split_char sep s' with
        | seg :: segs => String c seg :: segs
        | [] => [String c EmptyString]
        end
  end.

Fixpoint join_char (sep : ascii) (parts : list string) : string :=
  match parts with
  | [] => EmptyString
  | [p] => p
  | p :: ps => p ++ String sep (join_char sep ps)
  end.

Fixpoint has_char (c : ascii) (s : string) : bool :=
  match s with
  | EmptyString => false
  | String c' s' => Ascii.eqb c' c || has_char c s'
  end.

(** ** apps/server/src/middleware/auth.ts *)

(** A request, as far as the middleware reads it: [req.headers.get(name)]. *)
Record HttpRequest : Type := {
  headers_get : string -> option string
}.

(** [new Response(body, { status })] *)
Record HttpResponse : Type := {
  response_status : Z;
  response_body : string
}.

(** [string | Response] *)
Inductive AuthResult : Type :=
| Token (token : string)
| Denied (response : HttpResponse).

Definition unauthorized : HttpResponse :=
  {| response_status := 401; response_body := "unauthorized" |}.

Definition requireAuth (req : HttpRequest) : AuthResult :=
  match headers_get req "Authorization" with
  | None | Some EmptyString => Denied unauthorized
  | Some authorization =>
      let parts := split_char " " authorization in
      if negb (Nat.eqb (List.length parts) 2)
         || negb (match nth_error parts 0 with
                  | Some scheme => String.eqb scheme "Bearer"
                  | None => false
                  end)
      then Denied unauthorized
      else
        match nth_error parts 1 with
        | None | Some EmptyString => Denied unauthorized
        | Some token => Token token
        end
  end.

Definition withAuth (handler : HttpRequest -> string -> HttpResponse)
    (req : HttpRequest) : HttpResponse :=
  match requireAuth req with
  | Denied response => response
  | Token token => handler req token
  end.

(** ** Requests to the exchange *)

Inductive Method : Type := GET | POST | DELETE.

Inductive AuthKind : Type := kind_none | kind_l1 | kind_l2.

(** [headerArgs: { deferExec, order }] *)
Record HeaderArgs : Type := {
  deferExec : bool;
  headerArgs_order : SignedOrder
}.

Record Auth : Type := {
  auth_kind : AuthKind;
  auth_headerArgs : option HeaderArgs
}.

(** The bodies order.ts sends: a signed order, or [{ orderID }]. *)
Inductive Body : Type :=
| body_order (order : SignedOrder)
| body_orderID (orderID : string).

(** The argument of [client.request]. A query parameter may be
    [undefined]. *)
Record Request : Type := {
  req_method : Method;
  req_path : string;
  req_auth : Auth;
  req_params : list (string * option string);
  req_body : option Body
}.

Definition l2 : Auth := {| auth_kind := kind_l2; auth_headerArgs := None |}.
Definition no_auth : Auth := {| auth_kind := kind_none; auth_headerArgs := None |}.

(** [client.request<T>(...)]: base-client.ts is missing from the sources and
    the client is a parameter. A call acts on the world outside, of a type
    [W], and settles with a [T] or rejects; the type [T] is the caller's
    word, which nothing checks. *)
Definition Transport (W T : Type) : Type := W -> Request -> W * result T.

Record ListOrderParams : Type := {
  list_orderId : option string;
  list_marketId : string;
  list_assetId : option string
}.

(** [{ scoring: boolean }] *)
Record ScoringResponse : Type := {
  scoring : bool
}.

(** [OrderResponse] *)
Record OrderResponse : Type := {
  response_success : bool;
  response_errorMsg : option string;
  response_orderID : option string;
  response_transactionsHashes : option (list string)
}.

Section Requests.

Variable W : Type.

(** *** The requests of [OrderRequests] *)

Definition getOrder {T} (client : Transport W T) (id : string) (w : W)
    : W * result T :=
  client w {| req_method := GET;
              req_path := "/data/order/" ++ id;
              req_auth := l2;
              req_params := [];
              req_body := None |}.

Definition listOrders {T} (client : Transport W T) (params : ListOrderParams)
    (w : W) : W * result T :=
  client w {| req_method := GET;
              req_path := "/data/orders";
              req_auth := l2;
              req_params :=
                [("id", list_assetId params);
                 ("market", Some (list_marketId params));
                 ("asset_id", list_assetId params)];
              req_body := None |}.

(** The response is [{ scoring: boolean }]; its [scoring] is returned. *)
Definition checkOrderRewardScoring (client : Transport W ScoringResponse)
    (id : string) (w : W) : W * result bool :=
  match client w {| req_method := GET;
                    req_path := "/order-scoring";
                    req_auth := l2;
                    req_params := [("order_id", Some id)];
                    req_body := None |} with
  | (w', Ok response) => (w', Ok (scoring response))
  | (w', Err e) => (w', Err e)
  end.

Definition postOrder (client : Transport W OrderResponse) (order : SignedOrder)
    (w : W) : W * result OrderResponse :=
  client w {| req_method := POST;
              req_path := "/order";
              req_auth :=
                {| auth_kind := kind_l2;
                   auth_headerArgs :=
                     Some {| deferExec := false; headerArgs_order := order |} |};
              req_params := [];
              req_body := Some (body_order order) |}.

Definition cancelOrder {T} (client : Transport W T) (id : string) (w : W)
    : W * result T :=
  client w {| req_method := DELETE;
              req_path := "/order";
              req_auth := l2;
              req_params := [];
              req_body := Some (body_orderID id) |}.

Definition cancelOrders {T} (client : Transport W T) (_orderIds : list string)
    (w : W) : W * result T :=
  client w {| req_method := DELETE;
              req_path := "/orders";
              req_auth := l2;
              req_params := [];
              req_body := None |}.

Definition cancelAllOrders {T} (client : Transport W T) (w : W) : W * result T :=
  client w {| req_method := DELETE;
              req_path := "/cancel-all";
              req_auth := l2;
              req_params := [];
              req_body := None |}.

(** [createAndPostOrder]: the order is created, which records what the
    signer was handed, and the signed order is posted. *)
Definition createAndPostOrder
    (roundTo : number -> nat -> number)
    (POLYGON_CONTRACTS POLYGON_AMOY_CONTRACTS : ContractConfig)
    (wallet : Wallet) (market : Market) (amb : Ambient)
    (client : Transport W OrderResponse)
    (params : CreateOrderParams) (w : W)
    : list TypedData * (W * result OrderResponse) :=
  match createOrder roundTo POLYGON_CONTRACTS POLYGON_AMOY_CONTRACTS
          wallet market amb params with
  | (log, Ok signedOrder) => (log, postOrder client signedOrder w)
  | (log, Err e) => (log, (w, Err e))
  end.

(** *** [MarketRequests] *)

(** The market records are passed along unread: their type is a
    parameter. *)
Variable MarketData : Type.

Record ListMarketsResponse : Type := {
  data : list MarketData;
  next_cursor : option string;
  limit : number;
  count : number
}.

Definition MarketRequests_get {T} (client : Transport W T)
    (conditionId : string) (w : W) : W * result T :=
  client w {| req_method := GET;
              req_path := "/markets/" ++ conditionId;
              req_auth := no_auth;
              req_params := [];
              req_body := None |}.

Definition MarketRequests_list (client : Transport W ListMarketsResponse)
    (nextCursor : option string) (w : W) : W * result ListMarketsResponse :=
  client w {| req_method := GET;
              req_path := "/markets";
              req_auth := no_auth;
              req_params := [("next_cursor", nextCursor)];
              req_body := None |}.

(** A cursor to go on with: [undefined] and the empty string are falsy. *)
Definition truthy (cursor : option string) : bool :=
  match cursor with
  | Some (String _ _) => true
  | _ => false
  end.

(** The [do ... while (nextCursor)] loop of [listAll], with the markets
    gathered so far and the cursor to ask for. It runs as long as the
    server hands out cursors; [fuel] bounds the pages fetched, and [None]
    is a loop that has not ended within the bound. *)
Fixpoint listAll_loop (fuel : nat) (client : Transport W ListMarketsResponse)
    (markets : list MarketData) (nextCursor : option string) (w : W)
    : option (W * result (list MarketData)) :=
  match fuel with
  | O => None
  | S fuel' =>
      match MarketRequests_list client nextCursor w with
      | (w', Err e) => Some (w', Err e)
      | (w', Ok response) =>
          let markets' := (markets ++ data response)%list in
          if truthy (next_cursor response)
          then listAll_loop fuel' client markets' (next_cursor response) w'
          else Some (w', Ok markets')
      end
  end.

Definition MarketRequests_listAll (fuel : nat)
    (client : Transport W ListMarketsResponse) (w : W)
    : option (W * result (list MarketData)) :=
  listAll_loop fuel client [] None w.

(** The pages a listing fetches, from a cursor on: each is answered with a
    cursor to go on with, up to the last, which is not. *)
Inductive listed (client : Transport W ListMarketsResponse)
    : W -> option string -> list ListMarketsResponse -> W -> Prop :=
| listed_last w cursor response w' :
    MarketRequests_list client cursor w = (w', Ok response) ->
    truthy (next_cursor response) = false ->
    listed client w cursor [response] w'
| listed_more w cursor response w1 responses w' :
    MarketRequests_list client cursor w = (w1, Ok response) ->
    truthy (next_cursor response) = true ->
    listed client w1 (next_cursor response) responses w' ->
    listed client w cursor (response :: responses) w'.

(** A listing that fetches some pages and is then refused one. *)
Inductive refused (client : Transport W ListMarketsResponse)
    : W -> option string -> exn -> W -> Prop :=
| refused_now w cursor e w' :
    MarketRequests_list client cursor w = (w', Err e) ->
    refused client w cursor e w'
| refused_later w cursor response w1 e w' :
    MarketRequests_list client cursor w = (w1, Ok response) ->
    truthy (next_cursor response) = true ->
    refused client w1 (next_cursor response) e w' ->
    refused client w cursor e w'.

End Requests.

Arguments getOrder {W T} client id w.
Arguments listOrders {W T} client params w.
Arguments checkOrderRewardScoring {W} client id w.
Arguments postOrder {W} client order w.
Arguments cancelOrder {W T} client id w.
Arguments cancelOrders {W T} client _orderIds w.
Arguments cancelAllOrders {W T} client w.
Arguments createAndPostOrder {W} roundTo POLYGON_CONTRACTS
  POLYGON_AMOY_CONTRACTS wallet market amb client params w.
Arguments data {MarketData} _.
Arguments next_cursor {MarketData} _.
Arguments MarketRequests_get {W T} client conditionId w.
Arguments MarketRequests_list {W MarketData} client nextCursor w.
Arguments listAll_loop {W MarketData} fuel client markets nextCursor w.
Arguments MarketRequests_listAll {W MarketData} fuel client w.
Arguments listed {W MarketData} client _ _ _ _.
Arguments refused {W MarketData} client _ _ _ _.

(** ** signer/src/wallet.ts *)

Inductive SupportedChain : Type := polygon | polygon_amoy.

(** [createConnectedWallet]. viem is outside the repository: the ids of
    its chains [polygon] and [polygonAmoy], the account of a private key
    and the signing of a wallet client are parameters. *)
Definition createConnectedWallet
    (polygon_id polygonAmoy_id : number)
    (privateKeyToAccount : Hex -> Hex * option (result Z))
    (walletSignTypedData : Hex -> TypedData -> result string)
    (privateKey : Hex) (chain : SupportedChain) : Wallet :=
  let account := privateKeyToAccount privateKey in
  {| chain_id := match chain with polygon => polygon_id | _ => polygonAmoy_id end;
     account_address := fst account;
     account_getNonce := snd account;
     signTypedData := walletSignTypedData privateKey |}.

(** ** Typed data: values against wire types *)

(** Is a value of the kind a wire type takes? An integer type takes a
    bigint or an integral number, [address] and [string] take a string. *)
Definition has_wire_kind (wire : string) (v : value) : bool :=
  if String.eqb wire "uint256" || String.eqb wire "uint8" then
    match v with
    | VBigInt _ => true
    | VNumber x => match Number.to_integer x with Some _ => true | None => false end
    | VString _ => false
    end
  else if String.eqb wire "address" || String.eqb wire "string" then
    match v with VString _ => true | _ => false end
  else false.

(** Every member of a struct has a value of its kind, and the object has
    no other keys. *)
Definition object_fits (members : list (string * string)) (o : object) : bool :=
  forallb (fun m => match field (fst m) o with
                    | Some v => has_wire_kind (snd m) v
                    | None => false
                    end) members &&
  forallb (fun kv => match wire_type (fst kv) members with
                     | Some _ => true
                     | None => false
                     end) o &&
  Nat.eqb (List.length o) (List.length members).

(** A header carries a token: it is "Bearer", one space, and a non-empty
    token with no space in it. *)
Definition bearer (header : option string) (token : string) : Prop :=
  header = Some ("Bearer " ++ token) /\ token <> "" /\
  has_char " " token = false.

(** ** Sample clients, for concrete runs *)

Definition first_cursor (req : Request) : option string :=
  match req_params req with
  | (_, cursor) :: _ => cursor
  | [] => None
  end.

(** A server with two pages of markets; its world counts the requests. *)
Definition two_page_client : Transport nat (ListMarketsResponse nat) :=
  fun w req =>
    (S w,
     match first_cursor req with
     | None =>
         Ok {| data := [1; 2]%nat; next_cursor := Some "page2";
               limit := Number.of_Z 2; count := Number.of_Z 2 |}
     | Some _ =>
         Ok {| data := [3]%nat; next_cursor := Some "";
               limit := Number.of_Z 2; count := Number.of_Z 1 |}
     end).

(** A server that always hands out a cursor. *)
Definition endless_client : Transport nat (ListMarketsResponse nat) :=
  fun w req =>
    (S w, Ok {| data := [w]; next_cursor := Some "more";
                limit := Number.of_Z 1; count := Number.of_Z 1 |}).

(** A server that refuses its second page. *)
Definition refusing_client : Transport nat (ListMarketsResponse nat) :=
  fun w req =>
    (S w,
     match first_cursor req with
     | None =>
         Ok {| data := [1; 2]%nat; next_cursor := Some "page2";
               limit := Number.of_Z 2; count := Number.of_Z 2 |}
     | Some _ => Err (Rejected "too many requests")
     end).

(** An exchange that accepts every order; its world is the requests it has
    received. *)
Definition recording_client : Transport (list Request) OrderResponse :=
  fun w req =>
    ((w ++ [req])%list,
     Ok {| response_success := true; response_errorMsg := None;
           response_orderID := Some "0x01";
           response_transactionsHashes := None |}).

(** A wallet whose signer refuses. *)
Definition failing_wallet : Wallet :=
  {| chain_id := Number.of_Z 137;
     account_address := "0x00000000000000000000000000000000000000e1";
     account_getNonce := Some (Ok 7);
     signTypedData := fun _ => Err (Rejected "user rejected the request") |}.

(** Case analysis on the eight bits of a character. *)
Ltac ascii_cases c :=
  destruct c as [[|] [|] [|] [|] [|] [|] [|] [|]].

(** * Properties *)

(** ** The number model against known outputs *)

(** Products and prints as JavaScript gives them: [0.1 * 3],
    [0.07 * 100], [0.29 * 100], [2 ** 68], [1e21], [1e-7], the least
    positive number, [0.3 * 1000] floored, and [Math.round(-2.5)]. *)
Example number_model_known_outputs :
  map Number_toString
    [Number.mul (Number.of_ratio 1 10) (Number.of_Z 3);
     Number.mul (Number.of_ratio 7 100) (Number.of_Z 100);
     Number.mul (Number.of_ratio 29 100) (Number.of_Z 100);
     Number.of_Z (2 ^ 68);
     Number.pow10 21;
     Number.of_ratio 1 (10 ^ 7);
     Number.of_ratio 1 (2 ^ 1074);
     Number.floor (Number.mul (Number.of_ratio 3 10) (Number.pow10 3));
     Number.round (Number.of_ratio (-5) 2)] =
  ["0.30000000000000004"; "7.000000000000001"; "28.999999999999996";
   "295147905179352830000"; "1e+21"; "1e-7"; "5e-324"; "300"; "-2"].
Proof. vm_compute. reflexivity. Qed.

(** The search of step 5 yields the digits of an integer below [2^53]. *)
Example search_prints_small_integers :
  map (fun z => match Number.of_Z z with
                | S754_finite _ m e => NumberToString.of_positive_search m e
                | _ => ""
                end)
    [1; 10000; 450000; 566666666667; 2 ^ 53 - 1] =
  map (fun z => N_toString (Z.to_N z))
    [1; 10000; 450000; 566666666667; 2 ^ 53 - 1].
Proof. vm_compute. reflexivity. Qed.

(** [BigInt] of strings: literals and what it rejects. *)
Example BigInt_known_outputs :
  map BigInt ["450000"; "-12"; " 42 "; ""; "0x1F"; "1e+21"; "1.5"; "NaN"] =
  [Ok 450000; Ok (-12); Ok 42; Ok 0; Ok 31;
   Err SyntaxError; Err SyntaxError; Err SyntaxError].
Proof. vm_compute. reflexivity. Qed.

(** [roundTo_spec]: halves go away from zero. *)
Example roundTo_spec_known_outputs :
  map Number_toString
    [roundTo_spec (Number.of_ratio 125 1000) 2;
     roundTo_spec (Number.of_ratio (-125) 1000) 2;
     roundTo_spec (Number.of_ratio 2675 1000) 2;
     roundTo_spec (Number.of_ratio 45 100) 2;
     roundTo_spec (Number.of_Z (10 ^ 19)) 2] =
  ["0.13"; "-0.13"; "2.67"; "0.45"; "10000000000000000000"].
Proof. vm_compute. reflexivity. Qed.

(** ** Numbers: signs *)

Lemma binary_round_aux_sign sx mx ex lx :
  match binary_round_aux Number.prec Number.emax sx mx ex lx with
  | S754_nan => True
  | S754_zero s | S754_infinity s | S754_finite s _ _ => s = sx
  end.
Proof.
  unfold binary_round_aux.
  destruct (shr_fexp _ _ mx ex lx) as [mrs' e'].
  destruct (shr_fexp _ _ _ e' loc_Exact) as [mrs'' e''].
  destruct (shr_m mrs''); [ | destruct (Z.leb _ _) | ]; trivial.
Qed.

Lemma binary_round_aux_not_negative mx ex lx :
  Number.not_negative (binary_round_aux Number.prec Number.emax false mx ex lx) = true.
Proof.
  pose proof (binary_round_aux_sign false mx ex lx) as H.
  destruct (binary_round_aux _ _ _ _ _ _); simpl; subst; trivial.
Qed.

Lemma mul_not_negative x y :
  Number.not_negative x = true -> Number.not_negative y = true ->
  Number.not_negative (Number.mul x y) = true.
Proof.
  destruct x as [sx|sx| |sx mx ex], y as [sy|sy| |sy my ey]; simpl;
    try reflexivity; try discriminate;
    destruct sx, sy; simpl; try reflexivity; try discriminate.
  intros _ _. apply binary_round_aux_not_negative.
Qed.

Lemma of_Z_not_negative z : 0 <= z -> Number.not_negative (Number.of_Z z) = true.
Proof.
  destruct z as [|p|p]; intros Hz; try lia; [reflexivity|].
  unfold Number.of_Z, binary_normalize, binary_round.
  destruct (shl_align _ _ _) as [mz ez].
  apply binary_round_aux_not_negative.
Qed.

Lemma pow10_not_negative n : Number.not_negative (Number.pow10 n) = true.
Proof. apply of_Z_not_negative. apply Z.pow_nonneg. lia. Qed.

Lemma positive_number_not_negative x :
  positive_number x = true -> Number.not_negative x = true.
Proof.
  destruct x as [s|s| |s m e]; try destruct s; try reflexivity; discriminate.
Qed.

Lemma roundTo_spec_not_negative x d :
  Number.not_negative x = true -> Number.not_negative (roundTo_spec x d) = true.
Proof.
  destruct x as [s|s| |s m e]; simpl; trivial.
  destruct s; [discriminate|]. intros _.
  destruct (if 0 <=? e then _ else _); try reflexivity.
  unfold SFdiv. destruct (SFdiv_core_binary _ _ _ _ _ _) as [[mz ez] lz].
  apply binary_round_aux_not_negative.
Qed.

(** ** Numbers: integers below [2^53] are numbers *)

Lemma digits2_pos_lower p : 2 ^ (Zpos (digits2_pos p) - 1) <= Zpos p.
Proof.
  induction p as [p IH|p IH|]; simpl digits2_pos.
  - rewrite Pos2Z.inj_succ. replace (Z.succ (Zpos (digits2_pos p)) - 1) with (Z.succ (Zpos (digits2_pos p) - 1)) by lia.
    rewrite Z.pow_succ_r by lia. lia.
  - rewrite Pos2Z.inj_succ. replace (Z.succ (Zpos (digits2_pos p)) - 1) with (Z.succ (Zpos (digits2_pos p) - 1)) by lia.
    rewrite Z.pow_succ_r by lia. lia.
  - simpl. lia.
Qed.

Lemma digits2_pos_small p : Zpos p < 2 ^ 53 -> Zpos (digits2_pos p) <= 53.
Proof.
  intros Hp. pose proof (digits2_pos_lower p) as Hl.
  destruct (Z_le_gt_dec (Zpos (digits2_pos p)) 53) as [|Hgt]; trivial.
  assert (2 ^ 53 <= 2 ^ (Zpos (digits2_pos p) - 1)) by (apply Z.pow_le_mono_r; lia).
  lia.
Qed.

Lemma digits2_pos_iter_xO p k :
  Zpos (digits2_pos (Pos.iter xO p k)) = Zpos (digits2_pos p) + Zpos k.
Proof.
  induction k as [|k IH] using Pos.peano_ind.
  - simpl. lia.
  - rewrite Pos.iter_succ. simpl digits2_pos. lia.
Qed.

Lemma iter_xO_value p k : Zpos (Pos.iter xO p k) = Zpos p * 2 ^ Zpos k.
Proof.
  induction k as [|k IH] using Pos.peano_ind.
  - simpl. lia.
  - rewrite Pos.iter_succ, Pos2Z.inj_succ, Z.pow_succ_r by lia.
    rewrite Pos2Z.inj_xO, IH. lia.
Qed.

(** A canonical mantissa with an exponent in range is left as it is. *)
Lemma binary_round_aux_canonical s m e :
  Zpos (digits2_pos m) = 53 -> -1074 <= e <= 971 ->
  binary_round_aux Number.prec Number.emax s (Zpos m) e loc_Exact = S754_finite s m e.
Proof.
  intros Hd He.
  assert (Hfexp : fexp Number.prec Number.emax (Zpos (digits2_pos m) + e) - e = 0).
  { rewrite Hd. unfold fexp, emin, Number.prec, Number.emax. lia. }
  unfold binary_round_aux, shr_fexp.
  change (Zdigits2 (Zpos m)) with (Zpos (digits2_pos m)).
  rewrite Hfexp.
  cbn [shr shr_record_of_loc shr_m loc_of_shr_record round_nearest_even].
  change (Zdigits2 (Zpos m)) with (Zpos (digits2_pos m)).
  rewrite Hfexp.
  cbn [shr shr_m].
  replace (e <=? Number.emax - Number.prec) with true; trivial.
  symmetry. apply Z.leb_le. unfold Number.prec, Number.emax. lia.
Qed.

(** A positive integer below [2^53], rounded, is that integer: its mantissa
    is the integer shifted to 53 bits. *)
Lemma binary_round_exact s p :
  Zpos p < 2 ^ 53 ->
  exists (m : positive) (k : Z),
    0 <= k /\ Zpos m = Zpos p * 2 ^ k /\
    binary_round Number.prec Number.emax s p 0 = S754_finite s m (- k).
Proof.
  intros Hp. pose proof (digits2_pos_small p Hp) as Hd.
  unfold binary_round.
  assert (Hf : fexp Number.prec Number.emax (Zpos (digits2_pos p) + 0)
               = Zpos (digits2_pos p) - 53).
  { unfold fexp, emin, Number.prec, Number.emax. lia. }
  rewrite Hf. unfold shl_align.
  destruct (Zpos (digits2_pos p) - 53 - 0) as [|d|d] eqn:Hk; try lia.
  - exists p, 0. repeat split; try lia.
    apply binary_round_aux_canonical; lia.
  - exists (Pos.iter xO p d), (Zpos d). repeat split; try lia.
    + apply iter_xO_value.
    + replace (Zpos (digits2_pos p) - 53) with (- Zpos d) by lia.
      apply binary_round_aux_canonical.
      * rewrite digits2_pos_iter_xO. lia.
      * lia.
Qed.

Lemma to_integer_shifted m k p :
  0 <= k -> Zpos m = Zpos p * 2 ^ k ->
  Number.to_integer (S754_finite false m (- k)) = Some (Zpos p).
Proof.
  intros Hk Hm. unfold Number.to_integer.
  destruct (0 <=? - k) eqn:Hs.
  - apply Z.leb_le in Hs. assert (k = 0) as -> by lia.
    simpl in Hm. rewrite Z.shiftl_0_r. f_equal. lia.
  - apply Z.leb_gt in Hs.
    assert (Hdiv : Z.shiftl (Zpos m) (- k) = Zpos p).
    { rewrite Z.shiftl_div_pow2 by lia. rewrite Z.opp_involutive, Hm.
      apply Z.div_mul. apply Z.pow_nonzero; lia. }
    rewrite Hdiv, Z.opp_involutive, Z.shiftl_mul_pow2 by lia.
    rewrite <- Hm, Z.eqb_refl. reflexivity.
Qed.

Lemma toString_small_integer m e z :
  Number.to_integer (S754_finite false m e) = Some z -> 0 <= z < 2 ^ 53 ->
  Number_toString (S754_finite false m e) = N_toString (Z.to_N z).
Proof.
  intros Hi Hz. unfold Number_toString, NumberToString.of_positive.
  rewrite Hi. replace (z <? 2 ^ 53) with true by (symmetry; apply Z.ltb_lt; lia).
  reflexivity.
Qed.

(** The floor of a non-negative number below [2^53] prints as the decimal
    digits of an integer that is no more than the number. *)
Lemma floor_toString x :
  Number.sign_clear x = true -> Number.below_2_53 x = true ->
  exists (n : N) (q : Q),
    Number_toString (Number.floor x) = N_toString n /\
    Number.to_Q x = Some q /\ (inject_Z (Z.of_N n) <= q)%Q.
Proof.
  destruct x as [s|s| |s m e]; try discriminate.
  - intros _ _. exists 0%N, 0%Q. repeat split. apply Qle_refl.
  - destruct s; [discriminate|]. intros _ Hb. simpl in Hb.
    apply Z.ltb_lt in Hb.
    assert (Hnn : 0 <= Z.shiftl (Zpos m) e) by (apply Z.shiftl_nonneg; lia).
    unfold Number.floor, Number.to_Q.
    destruct (0 <=? e) eqn:He.
    + exists (Z.to_N (Z.shiftl (Zpos m) e)), (inject_Z (Z.shiftl (Zpos m) e)).
      repeat split.
      * apply toString_small_integer; [|lia].
        unfold Number.to_integer. rewrite He. reflexivity.
      * rewrite Z2N.id by lia. apply Qle_refl.
    + apply Z.leb_gt in He.
      exists (Z.to_N (Z.shiftl (Zpos m) e)), (Qmake (Zpos m) (Z.to_pos (2 ^ (- e)))).
      repeat split.
      * unfold Number.floorZ.
        destruct (Z.shiftl (Zpos m) e) as [|p|p] eqn:Hz; try lia.
        -- reflexivity.
        -- unfold binary_normalize.
           destruct (binary_round_exact false p Hb) as (m' & k & Hk & Hm' & ->).
           apply toString_small_integer; [|lia].
           apply to_integer_shifted; trivial.
      * rewrite Z2N.id by lia.
        unfold Qle. cbn [Qnum Qden inject_Z].
        rewrite Z2Pos.id by (apply Z.pow_pos_nonneg; lia).
        rewrite Z.shiftl_div_pow2 by lia.
        rewrite Z.mul_1_r, Z.mul_comm.
        apply Z.mul_div_le. apply Z.pow_pos_nonneg; lia.
Qed.

(** ** Digit strings *)

Lemma all_digits_string_of_uint d :
  all_digits (NilEmpty.string_of_uint d) = true.
Proof. induction d; simpl; trivial. Qed.

Lemma is_uint_string_N_toString n : is_uint_string (N_toString n) = true.
Proof.
  unfold N_toString.
  pose proof (all_digits_string_of_uint (N.to_uint n)) as Hall.
  assert (Hnil : N.to_uint n <> Decimal.Nil).
  { destruct n; simpl; [discriminate|apply Unsigned.to_uint_nonnil]. }
  destruct (N.to_uint n); try contradiction; exact Hall.
Qed.

Lemma digit_not_white_space c : is_digit c = true -> is_white_space c = false.
Proof. ascii_cases c; intros H; try discriminate H; reflexivity. Qed.

Lemma trim_end_digits s : all_digits s = true -> trim_end s = s.
Proof.
  induction s as [|c s IH]; simpl; trivial.
  intros H. apply andb_true_iff in H as [Hc Hs].
  rewrite (IH Hs). destruct s; trivial.
  now rewrite (digit_not_white_space c Hc).
Qed.

Lemma trim_digits s : is_uint_string s = true -> trim s = s.
Proof.
  destruct s as [|c s]; [discriminate|]. intros H. simpl in H.
  unfold trim. cbn [trim_start].
  pose proof H as H'. apply andb_true_iff in H' as [Hc _].
  rewrite (digit_not_white_space c Hc). now apply trim_end_digits.
Qed.

Lemma uint_of_string_digits s :
  all_digits s = true -> exists d, NilEmpty.uint_of_string s = Some d.
Proof.
  induction s as [|c s IH]; simpl.
  - intros _. now eexists.
  - intros H. apply andb_true_iff in H as [Hc Hs].
    destruct (IH Hs) as [d ->].
    ascii_cases c; try discriminate Hc; simpl; now eexists.
Qed.

Lemma decimal_literal_digits s :
  is_uint_string s = true -> exists z, 0 <= z /\ decimal_literal s = Some z.
Proof.
  destruct s as [|c s]; [discriminate|]. intros H.
  destruct (uint_of_string_digits (String c s) H) as [d Hd].
  exists (Z.of_N (N.of_uint d)). split; [lia|].
  unfold decimal_literal. now rewrite Hd.
Qed.

(** On an unsigned digit string, [BigInt] is the decimal literal. *)
Lemma BigInt_digits s :
  is_uint_string s = true ->
  BigInt s = match decimal_literal s with Some z => Ok z | None => Err SyntaxError end.
Proof.
  intros H. unfold BigInt. rewrite (trim_digits s H).
  destruct s as [|c s]; [discriminate|]. simpl in H.
  apply andb_true_iff in H as [Hc Hs].
  ascii_cases c; try discriminate Hc; try reflexivity.
  destruct s as [|c' s]; [reflexivity|]. simpl in Hs.
  apply andb_true_iff in Hs as [Hc' _].
  ascii_cases c'; try discriminate Hc'; reflexivity.
Qed.

Lemma BigInt_uint_string s :
  is_uint_string s = true -> exists z, 0 <= z /\ BigInt s = Ok z.
Proof.
  intros H. destruct (decimal_literal_digits s H) as (z & Hz & Hd).
  exists z. split; trivial. now rewrite (BigInt_digits s H), Hd.
Qed.

(** Printing a natural number and reading it back. *)
Lemma BigInt_N_toString n : BigInt (N_toString n) = Ok (Z.of_N n).
Proof.
  pose proof (is_uint_string_N_toString n) as H.
  rewrite (BigInt_digits _ H). unfold decimal_literal.
  destruct (N_toString n) eqn:Hs; [discriminate|]. rewrite <- Hs.
  unfold N_toString. rewrite NilEmpty.usu. simpl.
  now rewrite DecimalN.Unsigned.of_to.
Qed.

(** ** The amount calculator *)

(** C1: BUY yields maker = raw cost and taker = raw shares, SELL the
    inverse, whatever [roundTo] is; and for price 0.45, size 100 and
    tickSize "0.01" (2 tick decimals, 4 amount decimals, rounded price 0.45,
    shares 100, cost 45) the raw shares are "10000" and the raw cost is
    "450000", so that BUY yields maker "450000" and taker "10000". *)
Theorem calculateOrderAmounts_sides :
  (forall roundTo size price tickSize,
      calculateOrderAmounts roundTo BUY size price tickSize =
        {| amounts_maker := costRaw roundTo size price tickSize;
           amounts_taker := sharesRaw roundTo size |} /\
      calculateOrderAmounts roundTo SELL size price tickSize =
        {| amounts_maker := sharesRaw roundTo size;
           amounts_taker := costRaw roundTo size price tickSize |}) /\
  (let price := Number.of_ratio 45 100 in
   let size := Number.of_Z 100 in
   tickDecimals "0.01" = 2%nat /\
   amountDecimals "0.01" = 4%nat /\
   roundedPrice roundTo_spec price "0.01" = price /\
   shares roundTo_spec size = size /\
   cost roundTo_spec size price "0.01" = Number.of_Z 45 /\
   sharesRaw roundTo_spec size = "10000" /\
   costRaw roundTo_spec size price "0.01" = "450000" /\
   calculateOrderAmounts roundTo_spec BUY size price "0.01" =
     {| amounts_maker := "450000"; amounts_taker := "10000" |} /\
   calculateOrderAmounts roundTo_spec SELL size price "0.01" =
     {| amounts_maker := "10000"; amounts_taker := "450000" |}).
Proof.
  split.
  - intros roundTo size price tickSize. split; reflexivity.
  - repeat split; vm_compute; reflexivity.
Qed.

(** Truncation acts on the product the code computes, which is itself
    rounded: [0.3 * 1000] is the number 300 although the number 0.3 is
    below three tenths, and [0.29 * 100] is below 29, so that a size of 0.29
    has the raw shares "28". *)
Example floor_of_rounded_products :
  Number_toString
    (Number.floor (Number.mul (Number.of_ratio 3 10) (Number.pow10 3))) = "300" /\
  option_map (fun q => Qcompare (q * 1000) 300) (Number.to_Q (Number.of_ratio 3 10))
    = Some Lt /\
  sharesRaw roundTo_spec (Number.of_ratio 29 100) = "28".
Proof. repeat split; vm_compute; reflexivity. Qed.

(** C2, as stated, fails: a size of 10^19 at price 0.5 and tickSize "0.01"
    is valid, the scaled shares are 10^21, and [toString] prints them with
    an exponent: the raw shares are "1e+21" and the raw cost "5e+22",
    neither a string of digits, and [BigInt] rejects both. *)
Lemma raw_amounts_with_exponent :
  let size := Number.of_Z (10 ^ 19) in
  let price := Number.of_ratio 1 2 in
  positive_number price = true /\
  positive_number size = true /\
  is_decimal_string "0.01" = true /\
  sharesRaw roundTo_spec size = "1e+21" /\
  costRaw roundTo_spec size price "0.01" = "5e+22" /\
  is_uint_string (sharesRaw roundTo_spec size) = false /\
  is_uint_string (costRaw roundTo_spec size price "0.01") = false /\
  BigInt (sharesRaw roundTo_spec size) = Err SyntaxError /\
  BigInt (costRaw roundTo_spec size price "0.01") = Err SyntaxError.
Proof. repeat split; vm_compute; reflexivity. Qed.

(** The same raw shares come out of any [roundTo] that leaves the integer
    10^19 as it is, as a rounding to two decimal places does. *)
Lemma raw_shares_exponent_any_roundTo roundTo :
  roundTo (Number.of_Z (10 ^ 19)) sizeDecimals = Number.of_Z (10 ^ 19) ->
  sharesRaw roundTo (Number.of_Z (10 ^ 19)) = "1e+21".
Proof.
  intros H. unfold sharesRaw, sharesScaled, shares. rewrite H.
  vm_compute. reflexivity.
Qed.

Lemma not_negative_below_2_53 x :
  Number.not_negative x = true -> Number.below_2_53 x = true ->
  Number.sign_clear x = true.
Proof. destruct x; simpl; trivial; discriminate. Qed.

(** C2, amended: for a positive price and size, when the scaled shares
    [shares * 10 ** 2] and the scaled cost [cost * 10 ** amountDecimals] the
    code computes stay below 2^53, both raw amounts are strings of digits
    (non-negative integers with no fraction), and the integer the raw cost
    denotes is no more than the scaled cost. [roundTo] is any function that
    turns no non-negative number into a negative one. *)
Theorem raw_amounts_below_2_53 roundTo :
  (forall x d, Number.not_negative x = true ->
               Number.not_negative (roundTo x d) = true) ->
  forall side size price tickSize,
    positive_number price = true ->
    positive_number size = true ->
    Number.below_2_53 (sharesScaled roundTo size) = true ->
    Number.below_2_53 (costScaled roundTo size price tickSize) = true ->
    let amounts := calculateOrderAmounts roundTo side size price tickSize in
    is_uint_string (amounts_maker amounts) = true /\
    is_uint_string (amounts_taker amounts) = true /\
    exists (n : N) (q : Q),
      BigInt (costRaw roundTo size price tickSize) = Ok (Z.of_N n) /\
      Number.to_Q (costScaled roundTo size price tickSize) = Some q /\
      (inject_Z (Z.of_N n) <= q)%Q.
Proof.
  intros Hround side size price tickSize Hprice Hsize Hs Hc.
  apply positive_number_not_negative in Hprice, Hsize.
  assert (Hshares : Number.sign_clear (sharesScaled roundTo size) = true).
  { apply not_negative_below_2_53; trivial.
    apply mul_not_negative; [now apply Hround | apply pow10_not_negative]. }
  assert (Hcost : Number.sign_clear (costScaled roundTo size price tickSize) = true).
  { apply not_negative_below_2_53; trivial.
    apply mul_not_negative; [|apply pow10_not_negative].
    apply Hround, mul_not_negative; now apply Hround. }
  destruct (floor_toString _ Hshares Hs) as (ns & qs & Hns & _ & _).
  destruct (floor_toString _ Hcost Hc) as (nc & qc & Hnc & Hqc & Hle).
  assert (Us : is_uint_string (sharesRaw roundTo size) = true).
  { unfold sharesRaw. rewrite Hns. apply is_uint_string_N_toString. }
  assert (Uc : is_uint_string (costRaw roundTo size price tickSize) = true).
  { unfold costRaw. rewrite Hnc. apply is_uint_string_N_toString. }
  split; [|split].
  - destruct side; assumption.
  - destruct side; assumption.
  - exists nc, qc. repeat split; trivial.
    unfold costRaw. rewrite Hnc. apply BigInt_N_toString.
Qed.

Lemma raw_amounts_below_2_53_witness :
  let amounts :=
    calculateOrderAmounts roundTo_spec BUY
      (Number.of_Z 100) (Number.of_ratio 45 100) "0.01" in
  is_uint_string (amounts_maker amounts) = true /\
  is_uint_string (amounts_taker amounts) = true /\
  exists (n : N) (q : Q),
    BigInt (costRaw roundTo_spec (Number.of_Z 100) (Number.of_ratio 45 100) "0.01")
      = Ok (Z.of_N n) /\
    Number.to_Q (costScaled roundTo_spec (Number.of_Z 100) (Number.of_ratio 45 100) "0.01")
      = Some q /\
    (inject_Z (Z.of_N n) <= q)%Q.
Proof.
  apply (raw_amounts_below_2_53 roundTo_spec roundTo_spec_not_negative BUY
           (Number.of_Z 100) (Number.of_ratio 45 100) "0.01");
    vm_compute; reflexivity.
Defined.

Lemma split_dot_no_dot s : has_dot s = false -> split_dot s = [s].
Proof.
  induction s as [|c s IH]; simpl; trivial.
  intros H. apply orb_false_iff in H as [Hc Hs].
  rewrite Hc, (IH Hs). reflexivity.
Qed.

(** C3, as stated, fails: the calculator returns amounts for a negative
    price, for a size of zero and for a tickSize that is no decimal
    string. *)
Lemma calculateOrderAmounts_accepts_invalid :
  positive_number (Number.of_ratio (-45) 100) = false /\
  calculateOrderAmounts roundTo_spec BUY
    (Number.of_Z 100) (Number.of_ratio (-45) 100) "0.01" =
    {| amounts_maker := "-450000"; amounts_taker := "10000" |} /\
  positive_number Number.zero = false /\
  calculateOrderAmounts roundTo_spec BUY Number.zero (Number.of_ratio 45 100) "0.01" =
    {| amounts_maker := "0"; amounts_taker := "0" |} /\
  is_decimal_string "tick" = false /\
  calculateOrderAmounts roundTo_spec BUY
    (Number.of_Z 100) (Number.of_ratio 45 100) "tick" =
    {| amounts_maker := "0"; amounts_taker := "10000" |}.
Proof. repeat split; vm_compute; reflexivity. Qed.

(** C3, amended: the amount calculator validates nothing and has no way to
    fail. For a non-positive price or size, or a tickSize that is no
    decimal string, it returns the two printed floors like for any other
    input; a tickSize without a point counts zero tick decimals. *)
Theorem calculateOrderAmounts_validates_nothing
    roundTo side size price tickSize :
  positive_number price = false \/ positive_number size = false \/
  is_decimal_string tickSize = false ->
  (exists amounts,
      calculateOrderAmounts roundTo side size price tickSize = amounts /\
      amounts_maker amounts =
        Number_toString (Number.floor
          match side with
          | BUY => costScaled roundTo size price tickSize
          | SELL => sharesScaled roundTo size
          end) /\
      amounts_taker amounts =
        Number_toString (Number.floor
          match side with
          | BUY => sharesScaled roundTo size
          | SELL => costScaled roundTo size price tickSize
          end)) /\
  (has_dot tickSize = false -> tickDecimals tickSize = 0%nat).
Proof.
  intros _. split.
  - eexists. split; [reflexivity|]. destruct side; split; reflexivity.
  - intros H. unfold tickDecimals. now rewrite (split_dot_no_dot _ H).
Qed.

Lemma calculateOrderAmounts_validates_nothing_witness :
  (exists amounts,
      calculateOrderAmounts roundTo_spec BUY (Number.of_Z 100)
        (Number.of_ratio 45 100) "tick" = amounts /\
      amounts_maker amounts =
        Number_toString (Number.floor
          (costScaled roundTo_spec (Number.of_Z 100) (Number.of_ratio 45 100) "tick")) /\
      amounts_taker amounts =
        Number_toString (Number.floor (sharesScaled roundTo_spec (Number.of_Z 100)))) /\
  (has_dot "tick" = false -> tickDecimals "tick" = 0%nat).
Proof.
  apply (calculateOrderAmounts_validates_nothing roundTo_spec BUY
           (Number.of_Z 100) (Number.of_ratio 45 100) "tick").
  right. right. reflexivity.
Defined.

(** ** [Promise.all] *)

Lemma first_rejection_some rejected l e :
  first_rejection rejected l = Some e -> exists s, rejected s = Some e.
Proof.
  induction l as [|s l IH]; simpl; [discriminate|].
  destruct (rejected s) eqn:Hs.
  - intros [= <-]. now exists s.
  - exact IH.
Qed.

Lemma Promise_all3_fulfilled {A B C} l (a : result A) (b : result B)
    (c : result C) x y z :
  Promise_all3 l a b c = Ok (x, y, z) -> a = Ok x /\ b = Ok y /\ c = Ok z.
Proof.
  unfold Promise_all3. destruct (first_rejection _ _); [discriminate|].
  destruct a, b, c; try discriminate. now intros [= -> -> ->].
Qed.

Lemma Promise_all3_rejected {A B C} l (a : result A) (b : result B)
    (c : result C) :
  is_ok a && is_ok b && is_ok c = false ->
  exists e, Promise_all3 l a b c = Err e /\
            In (Some e) [rejection a; rejection b; rejection c].
Proof.
  intros H. unfold Promise_all3.
  destruct (first_rejection _ _) as [e|] eqn:Hf.
  - exists e. split; trivial.
    apply first_rejection_some in Hf as [s Hs].
    destruct s; rewrite <- Hs; simpl; auto.
  - destruct a as [x|e]; [destruct b as [y|e]; [destruct c as [z|e]|]|];
      try discriminate H; exists e; simpl; auto.
Qed.

(** ** [createOrder] *)

(** What a fulfilled [createOrder] has done: the three reads fulfilled, a
    salt was drawn, the order was built from them, its typed data was
    handed to the signer, once, and the signer signed. *)
Lemma createOrder_fulfilled roundTo P A wallet market amb params so :
  settled (createOrder roundTo P A wallet market amb params) = Ok so ->
  exists t f n salt td,
    getTickSize market (params_tokenId params) = Ok t /\
    getFeeRateBps market (params_tokenId params) = Ok f /\
    getNonce wallet = Ok n /\
    generateSalt amb = Ok salt /\
    orderTypedData P A wallet (buildOrder roundTo wallet params t f n salt) = Ok td /\
    signed_data (createOrder roundTo P A wallet market amb params) = [td] /\
    signTypedData wallet td = Ok (signed_signature so) /\
    signed_order so = buildOrder roundTo wallet params t f n salt.
Proof.
  unfold createOrder, signOrder, call_signTypedData, bind, lift, ret, settled, signed_data.
  destruct (Promise_all3 _ _ _ _) as [[[t f] n]|e] eqn:Hall; [|discriminate].
  apply Promise_all3_fulfilled in Hall as (Ht & Hf & Hn).
  destruct (generateSalt amb) as [salt|e] eqn:Hsalt; [|discriminate].
  destruct (orderTypedData _ _ _ _) as [td|e] eqn:Htd; [|discriminate].
  destruct (signTypedData wallet td) as [sig|e] eqn:Hsig; [|discriminate].
  cbn. intros [= <-]. exists t, f, n, salt, td. cbn. repeat split; trivial.
Qed.

(** ** The order message *)

(** [signOrder] hands the typed data it built to the signer, once. *)
Lemma signOrder_signed_data P A wallet order td :
  orderTypedData P A wallet order = Ok td ->
  signed_data (signOrder P A wallet order) = [td] /\
  settled (signOrder P A wallet order) = signTypedData wallet td.
Proof.
  intros H. unfold signOrder, bind, lift, call_signTypedData.
  rewrite H. split; reflexivity.
Qed.

(** For an order of the data model on a chain with an integer id, the
    typed data is built: signing reaches the signer. *)
Lemma orderTypedData_defined P A wallet order :
  Order_wf order = true ->
  is_ok (Number.to_BigInt (chain_id wallet)) = true ->
  exists td, orderTypedData P A wallet order = Ok td.
Proof.
  intros Hwf Hc.
  unfold Order_wf, numeric_fields in Hwf. cbn [forallb snd] in Hwf.
  repeat (apply andb_true_iff in Hwf as [?H Hwf]).
  unfold orderTypedData.
  destruct (Number.to_BigInt (chain_id wallet)); [|discriminate].
  repeat match goal with
         | H : is_uint_string ?s = true |- context [BigInt ?s] =>
             let E := fresh "E" in
             destruct (BigInt_uint_string _ H) as (? & _ & E); rewrite E; clear H
         end.
  now eexists.
Qed.

(** C4: in the typed data handed to the signer for an order, [side] and
    [signatureType] are the numbers of their codes, not their labels, and
    are declared [uint8], with eoa, poly-proxy, poly-gnosis-safe at 0, 1, 2
    and BUY, SELL at 0, 1; and each of salt, tokenId, makerAmount,
    takerAmount, expiration, nonce and feeRateBps is a bigint, not a
    string: the integer [BigInt] reads from the order's string, declared
    with the unsigned wire type [uint256], and non-negative when that
    string is an unsigned integer string, as the data model has it. *)
Theorem order_message_integer_codes P A wallet order td :
  orderTypedData P A wallet order = Ok td ->
  signed_data (signOrder P A wallet order) = [td] /\
  field "side" (message td) =
    Some (VNumber (Number.of_Z (orderSideToNumber (order_side order)))) /\
  field "signatureType" (message td) =
    Some (VNumber (Number.of_Z (signatureTypeToNumber (order_signatureType order)))) /\
  wire_type "side" (struct_members "Order" td) = Some "uint8" /\
  wire_type "signatureType" (struct_members "Order" td) = Some "uint8" /\
  (orderSideToNumber BUY = 0 /\ orderSideToNumber SELL = 1) /\
  (signatureTypeToNumber eoa = 0 /\ signatureTypeToNumber poly_proxy = 1 /\
   signatureTypeToNumber poly_gnosis_safe = 2) /\
  Forall (fun kv =>
            exists z, BigInt (snd kv) = Ok z /\
                      field (fst kv) (message td) = Some (VBigInt z) /\
                      wire_type (fst kv) (struct_members "Order" td) = Some "uint256" /\
                      (is_uint_string (snd kv) = true -> 0 <= z))
         (numeric_fields order).
Proof.
  intros Htd.
  split; [exact (proj1 (signOrder_signed_data _ _ _ _ _ Htd))|].
  unfold orderTypedData in Htd.
  destruct (Number.to_BigInt (chain_id wallet)) as [c|e]; [|discriminate].
  destruct (BigInt (order_salt order)) as [z1|e] eqn:E1; [|discriminate].
  destruct (BigInt (order_tokenId order)) as [z2|e] eqn:E2; [|discriminate].
  destruct (BigInt (order_nonce order)) as [z3|e] eqn:E3; [|discriminate].
  destruct (BigInt (order_feeRateBps order)) as [z4|e] eqn:E4; [|discriminate].
  destruct (BigInt (order_expiration order)) as [z5|e] eqn:E5; [|discriminate].
  destruct (BigInt (order_makerAmount order)) as [z6|e] eqn:E6; [|discriminate].
  destruct (BigInt (order_takerAmount order)) as [z7|e] eqn:E7; [|discriminate].
  injection Htd as <-.
  repeat split; try reflexivity.
  unfold numeric_fields.
  repeat (apply Forall_cons;
    [eexists; split; [eassumption|split; [reflexivity|split; [reflexivity|]]];
     cbn [snd]; intros Hu;
     destruct (BigInt_uint_string _ Hu) as (z & Hz & E); congruence|]).
  apply Forall_nil.
Qed.

Lemma order_message_integer_codes_witness :
  exists td,
    signed_data (signOrder sample_polygon_contracts sample_amoy_contracts
                   polygon_wallet sample_order) = [td] /\
    field "side" (message td) = Some (VNumber (Number.of_Z 0)) /\
    field "signatureType" (message td) = Some (VNumber (Number.of_Z 0)) /\
    field "makerAmount" (message td) = Some (VBigInt 450000).
Proof.
  eexists.
  pose proof (order_message_integer_codes sample_polygon_contracts
                sample_amoy_contracts polygon_wallet sample_order _
                eq_refl) as (H1 & H2 & H3 & _).
  split; [exact H1|]. split; [exact H2|]. split; [exact H3|]. reflexivity.
Defined.

(** C5: the [verifyingContract] of the domain handed to the signer is the
    address of the registry entry for the wallet's chain: the Polygon entry
    for chain id 137 and the Polygon Amoy entry for every other chain id. *)
Theorem verifyingContract_by_chain P A wallet order td :
  orderTypedData P A wallet order = Ok td ->
  signed_data (signOrder P A wallet order) = [td] /\
  getContractForChain P A (Number.of_Z 137) = P /\
  (forall chainId, Number.strict_eq chainId (Number.of_Z 137) = false ->
                   getContractForChain P A chainId = A) /\
  field "verifyingContract" (domain td) =
    Some (VString (negRiskExchange (getContractForChain P A (chain_id wallet)))) /\
  (Number.strict_eq (chain_id wallet) (Number.of_Z 137) = true ->
   field "verifyingContract" (domain td) = Some (VString (negRiskExchange P))) /\
  (Number.strict_eq (chain_id wallet) (Number.of_Z 137) = false ->
   field "verifyingContract" (domain td) = Some (VString (negRiskExchange A))).
Proof.
  intros Htd.
  split; [exact (proj1 (signOrder_signed_data _ _ _ _ _ Htd))|].
  split; [reflexivity|].
  split; [intros c Hc; unfold getContractForChain; now rewrite Hc|].
  assert (Hf : field "verifyingContract" (domain td) =
               Some (VString (negRiskExchange (getContractForChain P A (chain_id wallet))))).
  { unfold orderTypedData in Htd.
    repeat match type of Htd with
           | match ?r with Ok _ => _ | Err _ => _ end = _ =>
               destruct r; [|discriminate]
           end.
    injection Htd as <-. reflexivity. }
  split; [exact Hf|].
  split; intros Hc; rewrite Hf; unfold getContractForChain; now rewrite Hc.
Qed.

Lemma verifyingContract_by_chain_witness :
  (exists td,
      signed_data (signOrder sample_polygon_contracts sample_amoy_contracts
                     polygon_wallet sample_order) = [td] /\
      field "verifyingContract" (domain td) =
        Some (VString (negRiskExchange sample_polygon_contracts))) /\
  (exists td,
      signed_data (signOrder sample_polygon_contracts sample_amoy_contracts
                     amoy_wallet sample_order) = [td] /\
      field "verifyingContract" (domain td) =
        Some (VString (negRiskExchange sample_amoy_contracts))).
Proof.
  split; eexists.
  - pose proof (verifyingContract_by_chain sample_polygon_contracts
                  sample_amoy_contracts polygon_wallet sample_order _ eq_refl)
      as (H1 & _ & _ & _ & H2 & _).
    split; [exact H1 | exact (H2 eq_refl)].
  - pose proof (verifyingContract_by_chain sample_polygon_contracts
                  sample_amoy_contracts amoy_wallet sample_order _ eq_refl)
      as (H1 & _ & _ & _ & _ & H2).
    split; [exact H1 | exact (H2 eq_refl)].
Defined.

(** ** [createOrder] and [signClobAuth] at work *)

(** C6: [createOrder] waits for its three reads. If any of the tick size,
    the fee rate and the nonce rejects, in whatever order they settle,
    [createOrder] rejects with one of their reasons, builds no order and
    hands nothing to the signer; and when it fulfils, all three reads have
    fulfilled and the order is built from their three values. *)
Theorem createOrder_all_or_nothing roundTo P A wallet market amb params :
  let tick := getTickSize market (params_tokenId params) in
  let fee := getFeeRateBps market (params_tokenId params) in
  let nonce := getNonce wallet in
  let run := createOrder roundTo P A wallet market amb params in
  (is_ok tick && is_ok fee && is_ok nonce = false ->
   signed_data run = [] /\
   exists e, settled run = Err e /\
             In (Some e) [rejection tick; rejection fee; rejection nonce]) /\
  (forall so, settled run = Ok so ->
     exists t f n salt,
       tick = Ok t /\ fee = Ok f /\ nonce = Ok n /\
       generateSalt amb = Ok salt /\
       signed_order so = buildOrder roundTo wallet params t f n salt).
Proof.
  intros tick fee nonce run. split.
  - intros H.
    destruct (Promise_all3_rejected (settle_order amb) tick fee nonce H)
      as (e & He & Hin).
    subst run. unfold createOrder, bind, lift, settled, signed_data.
    fold tick fee nonce. rewrite He. cbn. split; [reflexivity|].
    exists e. split; [reflexivity|exact Hin].
  - intros so Hso.
    destruct (createOrder_fulfilled _ _ _ _ _ _ _ _ Hso)
      as (t & f & n & salt & td & Ht & Hf & Hn & Hs & _ & _ & _ & Ho).
    exists t, f, n, salt. repeat split; assumption.
Qed.

Lemma createOrder_all_or_nothing_witness :
  let run := createOrder roundTo_spec sample_polygon_contracts
               sample_amoy_contracts polygon_wallet failing_market
               sample_ambient sample_params in
  signed_data run = [] /\
  exists e, settled run = Err e /\
            In (Some e) [None; Some (Rejected "fee rate unavailable"); None].
Proof.
  apply (createOrder_all_or_nothing roundTo_spec sample_polygon_contracts
           sample_amoy_contracts polygon_wallet failing_market
           sample_ambient sample_params).
  vm_compute. reflexivity.
Defined.

(** C7: the typed data [signClobAuth] hands to the signer has the domain
    name "ClobAuthDomain", version "1" and the signer's chain id, the
    primary type "ClobAuth", and the message fields: the signer's account
    address, the timestamp printed as a string, the nonce as the bigint
    given, and the fixed attestation sentence; for every timestamp and
    nonce. *)
Theorem signClobAuth_typed_data signer timestamp nonce :
  exists td,
    signed_data (signClobAuth signer timestamp nonce) = [td] /\
    settled (signClobAuth signer timestamp nonce) = signTypedData signer td /\
    domain td =
      [("name", VString "ClobAuthDomain"); ("version", VString "1");
       ("chainId", VNumber (chain_id signer))] /\
    primaryType td = "ClobAuth" /\
    message td =
      [("address", VString (account_address signer));
       ("timestamp", VString (Number_toString timestamp));
       ("nonce", VBigInt nonce);
       ("message",
        VString "This message attests that I control the given wallet")] /\
    wire_type "nonce" (struct_members "ClobAuth" td) = Some "uint256" /\
    wire_type "timestamp" (struct_members "ClobAuth" td) = Some "string".
Proof. eexists. repeat split. Qed.

(** C8: [getNonce] settles as the account's own [getNonce] does when the
    account has one, so with the account's nonce when that fulfils, and
    fulfils with exactly 0 when the account has none; the [nonce] of an
    order [createOrder] produces is that bigint printed. *)
Theorem getNonce_default roundTo P A wallet market amb params :
  (forall r, account_getNonce wallet = Some r -> getNonce wallet = r) /\
  (account_getNonce wallet = None -> getNonce wallet = Ok 0) /\
  (forall so,
      settled (createOrder roundTo P A wallet market amb params) = Ok so ->
      order_nonce (signed_order so) =
        match account_getNonce wallet with
        | Some (Ok n) => BigInt_toString n
        | _ => "0"
        end).
Proof.
  split; [|split].
  - intros r H. unfold getNonce. now rewrite H.
  - intros H. unfold getNonce. now rewrite H.
  - intros so Hso.
    destruct (createOrder_fulfilled _ _ _ _ _ _ _ _ Hso)
      as (t & f & n & salt & td & _ & _ & Hn & _ & _ & _ & _ & ->).
    cbn [buildOrder order_nonce]. unfold getNonce in Hn.
    destruct (account_getNonce wallet) as [[m|e]|].
    + now injection Hn as ->.
    + discriminate.
    + now injection Hn as <-.
Qed.

Lemma getNonce_default_witness :
  getNonce polygon_wallet = Ok 7 /\ getNonce amoy_wallet = Ok 0.
Proof.
  split.
  - exact (proj1 (getNonce_default roundTo_spec sample_polygon_contracts
                    sample_amoy_contracts polygon_wallet sample_market
                    sample_ambient sample_params) (Ok 7) eq_refl).
  - exact (proj1 (proj2 (getNonce_default roundTo_spec sample_polygon_contracts
                           sample_amoy_contracts amoy_wallet sample_market
                           sample_ambient sample_params)) eq_refl).
Defined.

(** C9: every order [createOrder] produces has signature type eoa, whatever
    the caller's parameters, and the message handed to the signer carries
    the code 0 for it. *)
Theorem createOrder_signatureType_eoa roundTo P A wallet market amb params so :
  settled (createOrder roundTo P A wallet market amb params) = Ok so ->
  order_signatureType (signed_order so) = eoa /\
  exists td,
    signed_data (createOrder roundTo P A wallet market amb params) = [td] /\
    field "signatureType" (message td) = Some (VNumber (Number.of_Z 0)).
Proof.
  intros Hso.
  destruct (createOrder_fulfilled _ _ _ _ _ _ _ _ Hso)
    as (t & f & n & salt & td & _ & _ & _ & _ & Htd & Hlog & _ & Ho).
  split; [now rewrite Ho|].
  exists td. split; [exact Hlog|].
  unfold orderTypedData in Htd.
  repeat match type of Htd with
         | match ?r with Ok _ => _ | Err _ => _ end = _ =>
             destruct r; [|discriminate]
         end.
  injection Htd as <-. reflexivity.
Qed.

Lemma createOrder_signatureType_eoa_witness :
  exists so,
    settled (createOrder roundTo_spec sample_polygon_contracts
               sample_amoy_contracts polygon_wallet sample_market
               sample_ambient sample_params) = Ok so /\
    order_signatureType (signed_order so) = eoa.
Proof.
  eexists.
  assert (Hrun : settled (createOrder roundTo_spec sample_polygon_contracts
                            sample_amoy_contracts polygon_wallet sample_market
                            sample_ambient sample_params) = Ok _)
    by (vm_compute; reflexivity).
  split; [exact Hrun|].
  exact (proj1 (createOrder_signatureType_eoa roundTo_spec
                  sample_polygon_contracts sample_amoy_contracts polygon_wallet
                  sample_market sample_ambient sample_params _ Hrun)).
Defined.

(** C10, as stated, fails in one direction: a caller that passes the zero
    address itself as taker, not "public", gets an order whose taker is the
    zero address. *)
Lemma zero_taker_without_public :
  params_taker zero_taker_params <> public /\
  option_map (fun so => order_taker (signed_order so))
    (match settled (createOrder roundTo_spec sample_polygon_contracts
                      sample_amoy_contracts polygon_wallet sample_market
                      sample_ambient zero_taker_params) with
     | Ok so => Some so
     | Err _ => None
     end) = Some zeroAddress.
Proof. split; [discriminate | vm_compute; reflexivity]. Qed.

(** C10, amended: in every order [createOrder] produces, the taker is the
    zero address when the caller passed "public" and is otherwise the
    caller's taker address unchanged, so that it is the zero address exactly
    when the caller passed "public" or the zero address itself; maker and
    signer are both the wallet's account address. *)
Theorem createOrder_taker roundTo P A wallet market amb params so :
  settled (createOrder roundTo P A wallet market amb params) = Ok so ->
  order_taker (signed_order so) =
    match params_taker params with
    | public => zeroAddress
    | address a => a
    end /\
  (order_taker (signed_order so) = zeroAddress <->
   params_taker params = public \/ params_taker params = address zeroAddress) /\
  order_maker (signed_order so) = account_address wallet /\
  order_signer (signed_order so) = account_address wallet.
Proof.
  intros Hso.
  destruct (createOrder_fulfilled _ _ _ _ _ _ _ _ Hso)
    as (t & f & n & salt & td & _ & _ & _ & _ & _ & _ & _ & ->).
  cbn [buildOrder order_taker order_maker order_signer].
  repeat split; destruct (params_taker params) as [|a]; trivial.
  - now left.
  - intros ->. now right.
  - intros [H|H]; [discriminate | now injection H].
Qed.

Lemma createOrder_taker_witness :
  exists so,
    settled (createOrder roundTo_spec sample_polygon_contracts
               sample_amoy_contracts polygon_wallet sample_market
               sample_ambient sample_params) = Ok so /\
    order_taker (signed_order so) = zeroAddress /\
    order_maker (signed_order so) = account_address polygon_wallet.
Proof.
  eexists.
  assert (Hrun : settled (createOrder roundTo_spec sample_polygon_contracts
                            sample_amoy_contracts polygon_wallet sample_market
                            sample_ambient sample_params) = Ok _)
    by (vm_compute; reflexivity).
  split; [exact Hrun|].
  pose proof (createOrder_taker roundTo_spec sample_polygon_contracts
                sample_amoy_contracts polygon_wallet sample_market
                sample_ambient sample_params _ Hrun) as (H1 & _ & H2 & _).
  split; [exact H1 | exact H2].
Defined.

(** * Further properties *)

(** ** Splitting and joining *)

Lemma split_char_not_nil sep s : split_char sep s <> [].
Proof.
  destruct s as [|c s]; simpl; [discriminate|].
  destruct (Ascii.eqb c sep); [discriminate|].
  destruct (split_char sep s); discriminate.
Qed.

Lemma join_char_cons sep a p ps :
  join_char sep (a :: p :: ps) = a ++ String sep (join_char sep (p :: ps)).
Proof. reflexivity. Qed.

Lemma join_split_char sep s : join_char sep (split_char sep s) = s.
Proof.
  induction s as [|c s IH]; simpl; trivial.
  pose proof (split_char_not_nil sep s) as Hn.
  destruct (Ascii.eqb_spec c sep) as [->|Hc];
    destruct (split_char sep s) as [|p ps]; try contradiction.
  - rewrite join_char_cons, IH. reflexivity.
  - destruct ps as [|q ps].
    + simpl in *. now rewrite IH.
    + rewrite join_char_cons in *. cbn [append]. now rewrite IH.
Qed.

Lemma split_char_segments sep s :
  Forall (fun p => has_char sep p = false) (split_char sep s).
Proof.
  induction s as [|c s IH]; simpl.
  - repeat constructor.
  - destruct (Ascii.eqb c sep) eqn:Hc.
    + constructor; trivial.
    + destruct (split_char sep s) as [|p ps].
      * repeat constructor. simpl. now rewrite Hc.
      * inversion IH; subst. constructor; trivial. simpl. now rewrite Hc.
Qed.

Lemma split_char_plain sep s : has_char sep s = false -> split_char sep s = [s].
Proof.
  induction s as [|c s IH]; simpl; trivial.
  intros H. apply orb_false_iff in H as [Hc Hs].
  now rewrite Hc, (IH Hs).
Qed.

Lemma split_char_app sep a b :
  has_char sep a = false ->
  split_char sep (a ++ String sep b) = a :: split_char sep b.
Proof.
  induction a as [|c a IH]; simpl.
  - intros _. now rewrite Ascii.eqb_refl.
  - intros H. apply orb_false_iff in H as [Hc Ha].
    now rewrite Hc, (IH Ha).
Qed.

(** ** The bearer token of a request *)

Lemma requireAuth_token req token :
  requireAuth req = Token token <->
  bearer (headers_get req "Authorization") token.
Proof.
  unfold requireAuth, bearer. split.
  - destruct (headers_get req "Authorization") as [[|c h]|]; try discriminate.
    set (authorization := String c h).
    pose proof (join_split_char " " authorization) as Hjoin.
    pose proof (split_char_segments " " authorization) as Hseg.
    destruct (split_char " " authorization) as [|a [|b [|x parts]]];
      try discriminate.
    cbn [List.length Nat.eqb negb orb nth_error].
    destruct (String.eqb_spec a "Bearer") as [->|]; [|discriminate].
    cbn [negb]. destruct b as [|cb b]; [discriminate|].
    intros [= <-]. simpl in Hjoin. rewrite <- Hjoin.
    repeat split; [discriminate|].
    inversion Hseg as [|? ? _ Hrest]; subst. now inversion Hrest.
  - intros (-> & Hne & Hsp).
    change ("Bearer " ++ token) with ("Bearer" ++ String " " token).
    cbv beta iota. 
    replace (split_char " " ("Bearer" ++ String " " token)) with ["Bearer"; token]
      by (rewrite split_char_app by reflexivity; now rewrite split_char_plain).
    destruct token as [|c t]; [contradiction|]. reflexivity.
Qed.

(** X1: [requireAuth] returns a token exactly for an Authorization header
    made of "Bearer", one space and a non-empty token without a space, and
    the token is returned as it stands; for a missing or empty header and
    for any other header it returns the response 401 "unauthorized". *)
Theorem requireAuth_bearer req :
  (forall token,
      requireAuth req = Token token <->
      headers_get req "Authorization" = Some ("Bearer " ++ token) /\
      token <> "" /\ has_char " " token = false) /\
  ((forall token, requireAuth req <> Token token) ->
   requireAuth req = Denied unauthorized) /\
  (headers_get req "Authorization" = None \/
   headers_get req "Authorization" = Some "" ->
   requireAuth req = Denied unauthorized).
Proof.
  split; [intros token; apply requireAuth_token|]. split.
  - intros Hno. unfold requireAuth in *.
    destruct (headers_get req "Authorization") as [[|c h]|]; trivial.
    destruct (_ || _); trivial.
    destruct (nth_error _ 1) as [[|ct t]|]; trivial.
    now destruct (Hno (String ct t)).
  - unfold requireAuth. now intros [-> | ->].
Qed.

Lemma requireAuth_bearer_witness :
  requireAuth {| headers_get := fun _ => Some "Bearer s3cr3t" |} = Token "s3cr3t" /\
  requireAuth {| headers_get := fun _ => None |} = Denied unauthorized.
Proof.
  split.
  - apply (proj1 (requireAuth_bearer {| headers_get := fun _ => Some "Bearer s3cr3t" |})).
    repeat split. discriminate.
  - apply (proj2 (proj2 (requireAuth_bearer {| headers_get := fun _ => None |}))).
    now left.
Defined.

(** X2: [withAuth] calls the handler exactly when the request carries a
    bearer token, and hands it the request and that token; for every other
    request it answers 401 "unauthorized" whatever the handler is. *)
Theorem withAuth_guard handler req :
  (forall token,
      bearer (headers_get req "Authorization") token ->
      withAuth handler req = handler req token) /\
  ((forall token, ~ bearer (headers_get req "Authorization") token) ->
   withAuth handler req = unauthorized).
Proof.
  unfold withAuth. split.
  - intros token H. apply requireAuth_token in H. now rewrite H.
  - intros Hno. destruct (requireAuth req) as [token|response] eqn:Hr.
    + apply requireAuth_token in Hr. now destruct (Hno token).
    + unfold requireAuth in Hr.
      destruct (headers_get req "Authorization") as [[|c h]|];
        try (now injection Hr as <-).
      destruct (_ || _); try (now injection Hr as <-).
      destruct (nth_error _ 1) as [[|ct t]|];
        try discriminate; now injection Hr as <-.
Qed.

Lemma withAuth_guard_witness :
  withAuth (fun _ token => {| response_status := 200; response_body := token |})
    {| headers_get := fun _ => Some "Bearer s3cr3t" |} =
  {| response_status := 200; response_body := "s3cr3t" |}.
Proof.
  apply (proj1 (withAuth_guard
                  (fun _ token => {| response_status := 200; response_body := token |})
                  {| headers_get := fun _ => Some "Bearer s3cr3t" |}) "s3cr3t").
  repeat split. discriminate.
Defined.

(** ** Tick decimals *)

Lemma split_dot_split_char s : split_dot s = split_char "." s.
Proof. induction s as [|c s IH]; simpl; trivial. now rewrite IH. Qed.

Lemma has_dot_has_char s : has_dot s = has_char "." s.
Proof. induction s as [|c s IH]; simpl; trivial. now rewrite IH. Qed.

(** X3: the tick decimals of a tickSize are the length of what stands
    between its first and its second point, or to its end: of the fraction
    of "whole.fraction", whatever the two parts are made of, and of the
    middle part alone when more points follow. *)
Theorem tickDecimals_fraction whole fraction :
  has_dot whole = false -> has_dot fraction = false ->
  tickDecimals (whole ++ "." ++ fraction) = String.length fraction /\
  forall rest,
    tickDecimals (whole ++ "." ++ fraction ++ "." ++ rest) = String.length fraction.
Proof.
  intros Hw Hf. rewrite has_dot_has_char in Hw, Hf.
  unfold tickDecimals. split; [|intros rest]; rewrite split_dot_split_char.
  - change ("." ++ fraction) with (String "." fraction).
    rewrite (split_char_app _ _ _ Hw), (split_char_plain _ _ Hf). reflexivity.
  - change ("." ++ fraction ++ "." ++ rest)
      with (String "." (fraction ++ String "." rest)).
    rewrite (split_char_app _ _ _ Hw), (split_char_app _ _ _ Hf). reflexivity.
Qed.

Lemma tickDecimals_fraction_witness :
  tickDecimals ("0" ++ "." ++ "001") = 3%nat /\
  forall rest, tickDecimals ("0" ++ "." ++ "001" ++ "." ++ rest) = 3%nat.
Proof. apply (tickDecimals_fraction "0" "001"); reflexivity. Defined.

(** ** Printing integers and reading them back *)

Lemma BigInt_error s e : BigInt s = Err e -> e = SyntaxError.
Proof.
  unfold BigInt.
  match goal with |- match ?lit with _ => _ end = _ -> _ => destruct lit end;
    [discriminate | now intros [= <-]].
Qed.

Lemma trim_minus d :
  is_uint_string d = true -> trim (String "-" d) = String "-" d.
Proof.
  intros Hu. unfold trim.
  replace (trim_start (String "-" d)) with (String "-" d) by reflexivity.
  cbn [trim_end]. destruct d as [|c d]; [discriminate|].
  rewrite (trim_end_digits (String c d) Hu). reflexivity.
Qed.

(** [BigInt(z.toString())] is [z], for every bigint. *)
Lemma BigInt_BigInt_toString z : BigInt (BigInt_toString z) = Ok z.
Proof.
  destruct z as [|p|p].
  - reflexivity.
  - change (BigInt_toString (Zpos p)) with (N_toString (Npos p)).
    apply BigInt_N_toString.
  - unfold BigInt_toString.
    pose proof (is_uint_string_N_toString (Npos p)) as Hu.
    pose proof (BigInt_N_toString (Npos p)) as Hb.
    rewrite (BigInt_digits _ Hu) in Hb.
    destruct (decimal_literal (N_toString (Npos p))) as [z|] eqn:Hd;
      [|discriminate].
    injection Hb as ->.
    unfold BigInt. rewrite (trim_minus _ Hu). cbv beta iota zeta.
    rewrite Hd. reflexivity.
Qed.

(** A non-negative integral number below [2^53] prints as its digits, which
    [BigInt] reads back as the same integer. *)
Lemma Number_toString_integer x z :
  Number.sign_clear x = true -> Number.to_integer x = Some z -> z < 2 ^ 53 ->
  0 <= z /\ Number_toString x = N_toString (Z.to_N z).
Proof.
  destruct x as [s|s| |s m e]; try discriminate.
  - intros _ [= <-] _. split; [lia|reflexivity].
  - destruct s; [discriminate|]. intros _ Hi Hz.
    assert (Hnn : 0 <= z).
    { unfold Number.to_integer in Hi.
      destruct (0 <=? e); [|destruct (_ =? _); [|discriminate]];
        injection Hi as <-; apply Z.shiftl_nonneg; lia. }
    split; trivial. apply toString_small_integer; trivial. lia.
Qed.

Lemma BigInt_Number_toString x z :
  Number.sign_clear x = true -> Number.to_integer x = Some z -> z < 2 ^ 53 ->
  BigInt (Number_toString x) = Ok z.
Proof.
  intros Hs Hi Hz.
  destruct (Number_toString_integer x z Hs Hi Hz) as [Hnn ->].
  rewrite BigInt_N_toString. now rewrite Z2N.id.
Qed.

(** ** More on [createOrder] *)

Lemma first_rejection_none rejected l :
  (forall s, rejected s = None) -> first_rejection rejected l = None.
Proof.
  intros H. induction l as [|s l IH]; simpl; trivial. now rewrite H.
Qed.

Lemma Promise_all3_all_fulfilled {A B C} l (x : A) (y : B) (z : C) :
  Promise_all3 l (Ok x) (Ok y) (Ok z) = Ok (x, y, z).
Proof.
  unfold Promise_all3. rewrite first_rejection_none; trivial.
  now intros [].
Qed.

Lemma Promise_all3_first {A B C} s l (a : result A) (b : result B)
    (c : result C) e :
  match s with
  | TickSizeRead => rejection a
  | FeeRateRead => rejection b
  | NonceRead => rejection c
  end = Some e ->
  Promise_all3 (s :: l) a b c = Err e.
Proof.
  intros H. unfold Promise_all3. cbn [app first_rejection]. now rewrite H.
Qed.

(** What [createOrder] does once its reads have fulfilled and a salt is
    drawn: it builds the order and its typed data, and calls the signer if
    the typed data could be built. *)
Lemma createOrder_run roundTo P A wallet market amb params t f n salt :
  getTickSize market (params_tokenId params) = Ok t ->
  getFeeRateBps market (params_tokenId params) = Ok f ->
  getNonce wallet = Ok n ->
  generateSalt amb = Ok salt ->
  createOrder roundTo P A wallet market amb params =
    let order := buildOrder roundTo wallet params t f n salt in
    match orderTypedData P A wallet order with
    | Ok td =>
        ([td],
         match signTypedData wallet td with
         | Ok signature =>
             Ok {| signed_order := order; signed_signature := signature |}
         | Err e => Err e
         end)
    | Err e => ([], Err e)
    end.
Proof.
  intros Ht Hf Hn Hs.
  unfold createOrder, signOrder, call_signTypedData, bind, lift, ret.
  rewrite Ht, Hf, Hn, Promise_all3_all_fulfilled, Hs. cbn.
  destruct (orderTypedData _ _ _ _) as [td|e]; trivial.
  destruct (signTypedData wallet td); reflexivity.
Qed.

(** Before its reads have fulfilled and a salt is drawn, [createOrder]
    signs nothing. *)
Lemma createOrder_early_rejection roundTo P A wallet market amb params :
  is_ok (getTickSize market (params_tokenId params)) &&
  is_ok (getFeeRateBps market (params_tokenId params)) &&
  is_ok (getNonce wallet) && is_ok (generateSalt amb) = false ->
  signed_data (createOrder roundTo P A wallet market amb params) = [] /\
  exists e, settled (createOrder roundTo P A wallet market amb params) = Err e.
Proof.
  intros H. unfold createOrder, bind, lift, signed_data, settled.
  destruct (Promise_all3 _ _ _ _) as [[[t f] n]|e] eqn:Hall.
  - apply Promise_all3_fulfilled in Hall as (Ht & Hf & Hn).
    rewrite Ht, Hf, Hn in H. cbn in H.
    destruct (generateSalt amb); [discriminate|]. cbn. split; eauto.
  - cbn. split; eauto.
Qed.

(** The two ways [createOrder] can go. *)
Lemma createOrder_signer_cases roundTo P A wallet market amb params :
  let run := createOrder roundTo P A wallet market amb params in
  (signed_data run = [] /\ exists e, settled run = Err e) \/
  (exists t f n salt td,
      getTickSize market (params_tokenId params) = Ok t /\
      getFeeRateBps market (params_tokenId params) = Ok f /\
      getNonce wallet = Ok n /\
      generateSalt amb = Ok salt /\
      let order := buildOrder roundTo wallet params t f n salt in
      orderTypedData P A wallet order = Ok td /\
      signed_data run = [td] /\
      settled run =
        match signTypedData wallet td with
        | Ok signature =>
            Ok {| signed_order := order; signed_signature := signature |}
        | Err e => Err e
        end).
Proof.
  intros run. subst run.
  destruct (getTickSize market (params_tokenId params)) as [t|e1] eqn:Ht;
    [destruct (getFeeRateBps market (params_tokenId params)) as [f|e2] eqn:Hf;
     [destruct (getNonce wallet) as [n|e3] eqn:Hn;
      [destruct (generateSalt amb) as [salt|e4] eqn:Hs|]|]|];
    try (left; apply createOrder_early_rejection;
         rewrite ?Ht, ?Hf, ?Hn, ?Hs; reflexivity).
  rewrite (createOrder_run roundTo P A wallet market amb params t f n salt Ht Hf Hn Hs).
  cbv zeta.
  destruct (orderTypedData _ _ _ _) as [td|e] eqn:Htd.
  - right. exists t, f, n, salt, td. repeat split; trivial.
  - left. split; [reflexivity|]. now exists e.
Qed.

(** X4: [createOrder] calls the signer at most once. If it has not called
    it, it has rejected; if it has, all three reads had fulfilled, the
    signer was handed the typed data of the order built from them, and the
    outcome is the signer's: the order with its signature, or the signer's
    rejection. *)
Theorem createOrder_signer_calls roundTo P A wallet market amb params :
  let run := createOrder roundTo P A wallet market amb params in
  (List.length (signed_data run) <= 1)%nat /\
  (signed_data run = [] -> exists e, settled run = Err e) /\
  (forall td,
      signed_data run = [td] ->
      exists t f n salt,
        getTickSize market (params_tokenId params) = Ok t /\
        getFeeRateBps market (params_tokenId params) = Ok f /\
        getNonce wallet = Ok n /\
        generateSalt amb = Ok salt /\
        let order := buildOrder roundTo wallet params t f n salt in
        orderTypedData P A wallet order = Ok td /\
        settled run =
          match signTypedData wallet td with
          | Ok signature =>
              Ok {| signed_order := order; signed_signature := signature |}
          | Err e => Err e
          end).
Proof.
  intros run.
  destruct (createOrder_signer_cases roundTo P A wallet market amb params)
    as [[Hlog [e He]] | (t & f & n & salt & td & Ht & Hf & Hn & Hs & Htd & Hlog & Hr)];
    fold run in Hlog; rewrite Hlog.
  - split; [simpl; lia|]. split; [now exists e | discriminate].
  - split; [simpl; lia|]. split; [discriminate|].
    intros td' [= <-]. exists t, f, n, salt. repeat split; assumption.
Qed.

(** X5: when reads of [createOrder] reject with one and the same reason,
    as when a single read rejects, [createOrder] rejects with that reason
    in whatever order the reads settle; and the read that settles first,
    if it rejects, gives its reason whatever the others do. *)
Theorem createOrder_rejection_reason roundTo P A wallet market amb params e :
  let tick := getTickSize market (params_tokenId params) in
  let fee := getFeeRateBps market (params_tokenId params) in
  let nonce := getNonce wallet in
  let run := createOrder roundTo P A wallet market amb params in
  (is_ok tick && is_ok fee && is_ok nonce = false ->
   (forall e', In (Some e') [rejection tick; rejection fee; rejection nonce] ->
               e' = e) ->
   settled run = Err e) /\
  (forall s rest,
      settle_order amb = s :: rest ->
      match s with
      | TickSizeRead => rejection tick
      | FeeRateRead => rejection fee
      | NonceRead => rejection nonce
      end = Some e ->
      settled run = Err e).
Proof.
  intros tick fee nonce run. split.
  - intros Hone Hsame.
    destruct (Promise_all3_rejected (settle_order amb) tick fee nonce Hone)
      as (e0 & He0 & Hin).
    subst run. unfold createOrder, bind, lift, settled.
    fold tick fee nonce. rewrite He0. cbn. f_equal. now apply Hsame.
  - intros s rest Hs Hrej.
    subst run. unfold createOrder, bind, lift, settled.
    fold tick fee nonce. rewrite Hs.
    now rewrite (Promise_all3_first s rest tick fee nonce e Hrej).
Qed.

Lemma createOrder_rejection_reason_witness :
  settled (createOrder roundTo_spec sample_polygon_contracts
             sample_amoy_contracts polygon_wallet failing_market
             sample_ambient sample_params)
  = Err (Rejected "fee rate unavailable").
Proof.
  apply (proj1 (createOrder_rejection_reason roundTo_spec
                  sample_polygon_contracts sample_amoy_contracts polygon_wallet
                  failing_market sample_ambient sample_params
                  (Rejected "fee rate unavailable"))).
  - reflexivity.
  - intros e' [H|[H|[H|[]]]]; try discriminate H. now injection H.
Defined.

(** The typed data of an order, field by field, once it is built. *)
Lemma orderTypedData_fields P A wallet order td :
  orderTypedData P A wallet order = Ok td ->
  exists chainId salt tokenId nonce feeRateBps expiration makerAmount takerAmount,
    Number.to_BigInt (chain_id wallet) = Ok chainId /\
    BigInt (order_salt order) = Ok salt /\
    BigInt (order_tokenId order) = Ok tokenId /\
    BigInt (order_nonce order) = Ok nonce /\
    BigInt (order_feeRateBps order) = Ok feeRateBps /\
    BigInt (order_expiration order) = Ok expiration /\
    BigInt (order_makerAmount order) = Ok makerAmount /\
    BigInt (order_takerAmount order) = Ok takerAmount /\
    domain td =
      [("name", VString "Polymarket CTF Exchange");
       ("version", VString "1");
       ("chainId", VBigInt chainId);
       ("verifyingContract",
        VString (negRiskExchange (getContractForChain P A (chain_id wallet))))] /\
    types td =
      [("EIP712Domain", EIP712Domain_members); ("Order", Order_members)] /\
    message td =
      [("salt", VBigInt salt);
       ("signer", VString (order_signer order));
       ("maker", VString (order_maker order));
       ("taker", VString (order_taker order));
       ("tokenId", VBigInt tokenId);
       ("nonce", VBigInt nonce);
       ("feeRateBps", VBigInt feeRateBps);
       ("expiration", VBigInt expiration);
       ("side", VNumber (Number.of_Z (orderSideToNumber (order_side order))));
       ("signatureType",
        VNumber (Number.of_Z (signatureTypeToNumber (order_signatureType order))));
       ("makerAmount", VBigInt makerAmount);
       ("takerAmount", VBigInt takerAmount)].
Proof.
  intros Htd. unfold orderTypedData in Htd.
  destruct (Number.to_BigInt (chain_id wallet)) as [c|e]; [|discriminate].
  destruct (BigInt (order_salt order)) as [z1|e]; [|discriminate].
  destruct (BigInt (order_tokenId order)) as [z2|e]; [|discriminate].
  destruct (BigInt (order_nonce order)) as [z3|e]; [|discriminate].
  destruct (BigInt (order_feeRateBps order)) as [z4|e]; [|discriminate].
  destruct (BigInt (order_expiration order)) as [z5|e]; [|discriminate].
  destruct (BigInt (order_makerAmount order)) as [z6|e]; [|discriminate].
  destruct (BigInt (order_takerAmount order)) as [z7|e]; [|discriminate].
  injection Htd as <-.
  exists c, z1, z2, z3, z4, z5, z6, z7. repeat split; reflexivity.
Qed.

(** X6: what [createOrder] prints into the order's strings, [signOrder]
    reads back unchanged: in the message handed to the signer, the nonce is
    the bigint the nonce read returned and the salt is the bigint
    [generateSalt] drew, and so is what [BigInt] makes of the nonce and the
    salt of the order returned. *)
Theorem createOrder_bigints_round_trip roundTo P A wallet market amb params so :
  settled (createOrder roundTo P A wallet market amb params) = Ok so ->
  exists n salt td,
    getNonce wallet = Ok n /\ generateSalt amb = Ok salt /\
    signed_data (createOrder roundTo P A wallet market amb params) = [td] /\
    field "nonce" (message td) = Some (VBigInt n) /\
    field "salt" (message td) = Some (VBigInt salt) /\
    BigInt (order_nonce (signed_order so)) = Ok n /\
    BigInt (order_salt (signed_order so)) = Ok salt.
Proof.
  intros Hso.
  destruct (createOrder_fulfilled _ _ _ _ _ _ _ _ Hso)
    as (t & f & n & salt & td & _ & _ & Hn & Hs & Htd & Hlog & _ & Ho).
  exists n, salt, td. rewrite Ho.
  destruct (orderTypedData_fields _ _ _ _ _ Htd)
    as (c & z1 & z2 & z3 & z4 & z5 & z6 & z7 & _ & E1 & _ & E3 & _ & _ & _ & _
        & _ & _ & Hm).
  cbn [buildOrder order_salt order_nonce] in E1, E3 |- *.
  rewrite BigInt_BigInt_toString in E1, E3.
  injection E1 as <-. injection E3 as <-.
  rewrite Hm. repeat split; trivial; apply BigInt_BigInt_toString.
Qed.

Lemma createOrder_bigints_round_trip_witness :
  exists so td,
    settled (createOrder roundTo_spec sample_polygon_contracts
               sample_amoy_contracts polygon_wallet sample_market
               sample_ambient sample_params) = Ok so /\
    signed_data (createOrder roundTo_spec sample_polygon_contracts
                   sample_amoy_contracts polygon_wallet sample_market
                   sample_ambient sample_params) = [td] /\
    field "nonce" (message td) = Some (VBigInt 7) /\
    field "salt" (message td) = Some (VBigInt 566666666667).
Proof.
  assert (Hrun : settled (createOrder roundTo_spec sample_polygon_contracts
                            sample_amoy_contracts polygon_wallet sample_market
                            sample_ambient sample_params) = Ok _)
    by (vm_compute; reflexivity).
  destruct (createOrder_bigints_round_trip roundTo_spec sample_polygon_contracts
              sample_amoy_contracts polygon_wallet sample_market
              sample_ambient sample_params _ Hrun)
    as (n & salt & td & Hn & Hs & Hlog & Hfn & Hfs & _).
  eexists. exists td. split; [exact Hrun|]. split; [exact Hlog|].
  assert (n = 7) as <- by (vm_compute in Hn; now injection Hn).
  assert (salt = 566666666667) as <- by (vm_compute in Hs; now injection Hs).
  split; assumption.
Defined.

(** X7: a fee rate and an expiration that are non-negative integers below
    2^53 reach the message handed to the signer as those integers, through
    the decimal strings of the order. *)
Theorem createOrder_numbers_round_trip roundTo P A wallet market amb params
    so f zf ze :
  settled (createOrder roundTo P A wallet market amb params) = Ok so ->
  getFeeRateBps market (params_tokenId params) = Ok f ->
  Number.sign_clear f = true -> Number.to_integer f = Some zf -> zf < 2 ^ 53 ->
  Number.sign_clear (params_expiration params) = true ->
  Number.to_integer (params_expiration params) = Some ze -> ze < 2 ^ 53 ->
  exists td,
    signed_data (createOrder roundTo P A wallet market amb params) = [td] /\
    field "feeRateBps" (message td) = Some (VBigInt zf) /\
    field "expiration" (message td) = Some (VBigInt ze) /\
    order_feeRateBps (signed_order so) = N_toString (Z.to_N zf) /\
    order_expiration (signed_order so) = N_toString (Z.to_N ze).
Proof.
  intros Hso Hfee Hsf Hif Hzf Hse Hie Hze.
  destruct (createOrder_fulfilled _ _ _ _ _ _ _ _ Hso)
    as (t & f' & n & salt & td & _ & Hf' & _ & _ & Htd & Hlog & _ & Ho).
  rewrite Hfee in Hf'. injection Hf' as <-.
  exists td. rewrite Ho.
  destruct (orderTypedData_fields _ _ _ _ _ Htd)
    as (c & z1 & z2 & z3 & z4 & z5 & z6 & z7 & _ & _ & _ & _ & E4 & E5 & _ & _
        & _ & _ & Hm).
  cbn [buildOrder order_feeRateBps order_expiration] in E4, E5 |- *.
  rewrite (BigInt_Number_toString _ _ Hsf Hif Hzf) in E4.
  rewrite (BigInt_Number_toString _ _ Hse Hie Hze) in E5.
  injection E4 as <-. injection E5 as <-.
  rewrite Hm. repeat split; trivial.
  - apply (Number_toString_integer _ _ Hsf Hif Hzf).
  - apply (Number_toString_integer _ _ Hse Hie Hze).
Qed.

Lemma createOrder_numbers_round_trip_witness :
  exists td,
    signed_data (createOrder roundTo_spec sample_polygon_contracts
                   sample_amoy_contracts polygon_wallet sample_market
                   sample_ambient sample_params) = [td] /\
    field "feeRateBps" (message td) = Some (VBigInt 0) /\
    field "expiration" (message td) = Some (VBigInt 0).
Proof.
  assert (Hrun : settled (createOrder roundTo_spec sample_polygon_contracts
                            sample_amoy_contracts polygon_wallet sample_market
                            sample_ambient sample_params) = Ok _)
    by (vm_compute; reflexivity).
  destruct (createOrder_numbers_round_trip roundTo_spec sample_polygon_contracts
              sample_amoy_contracts polygon_wallet sample_market
              sample_ambient sample_params _ Number.zero 0 0 Hrun
              eq_refl eq_refl eq_refl eq_refl eq_refl eq_refl eq_refl)
    as (td & Hlog & Hf & He & _).
  exists td. repeat split; assumption.
Defined.

(** X8: an expiration or a fee rate that is NaN or infinite is never
    signed: it is printed as "NaN" or "Infinity", [BigInt] throws on it, and
    [createOrder] rejects without calling the signer; with a SyntaxError,
    when the reads have fulfilled, a salt is drawn and the chain id is an
    integer. *)
Theorem createOrder_nonfinite_rejected roundTo P A wallet market amb params :
  Number.to_Q (params_expiration params) = None \/
  (exists f, getFeeRateBps market (params_tokenId params) = Ok f /\
             Number.to_Q f = None) ->
  let run := createOrder roundTo P A wallet market amb params in
  signed_data run = [] /\
  (exists e, settled run = Err e) /\
  (is_ok (getTickSize market (params_tokenId params)) = true ->
   is_ok (getFeeRateBps market (params_tokenId params)) = true ->
   is_ok (getNonce wallet) = true ->
   is_ok (generateSalt amb) = true ->
   is_ok (Number.to_BigInt (chain_id wallet)) = true ->
   settled run = Err SyntaxError).
Proof.
  intros Hbad run. subst run.
  assert (Hno : forall t f n salt td,
             getFeeRateBps market (params_tokenId params) = Ok f ->
             orderTypedData P A wallet (buildOrder roundTo wallet params t f n salt)
             <> Ok td).
  { intros t f n salt td Hf Htd.
    destruct (orderTypedData_fields _ _ _ _ _ Htd)
      as (c & z1 & z2 & z3 & z4 & z5 & z6 & z7 & _ & _ & _ & _ & E4 & E5 & _).
    cbn [buildOrder order_feeRateBps order_expiration] in E4, E5.
    destruct Hbad as [He | (f' & Hf' & He)].
    - destruct (params_expiration params) as [s|[|]| |s m e];
        try discriminate He; vm_compute in E5; discriminate.
    - rewrite Hf in Hf'. injection Hf' as <-.
      destruct f as [s|[|]| |s m e];
        try discriminate He; vm_compute in E4; discriminate. }
  destruct (createOrder_signer_cases roundTo P A wallet market amb params)
    as [[Hlog [e He]] | (t & f & n & salt & td & _ & Hf & _ & _ & Htd & _)].
  2: { now destruct (Hno t f n salt td Hf). }
  split; [exact Hlog|]. split; [now exists e|].
  intros Ht Hf Hn Hs Hc.
  destruct (getTickSize market (params_tokenId params)) as [t|] eqn:Et; [|discriminate].
  destruct (getFeeRateBps market (params_tokenId params)) as [f|] eqn:Ef; [|discriminate].
  destruct (getNonce wallet) as [n|] eqn:En; [|discriminate].
  destruct (generateSalt amb) as [salt|] eqn:Es; [|discriminate].
  rewrite (createOrder_run roundTo P A wallet market amb params t f n salt Et Ef En Es)
    in He |- *.
  cbv zeta in *.
  destruct (orderTypedData P A wallet (buildOrder roundTo wallet params t f n salt))
    as [td|e0] eqn:Htd.
  - now destruct (Hno t f n salt td eq_refl).
  - unfold settled. cbn [snd]. f_equal.
    unfold orderTypedData in Htd.
    destruct (Number.to_BigInt (chain_id wallet)); [|discriminate].
    repeat match type of Htd with
           | match ?r with Ok _ => _ | Err _ => _ end = _ =>
               let E := fresh "E" in
               destruct r eqn:E;
               [|injection Htd as <-; now apply BigInt_error in E]
           end.
    discriminate.
Qed.

Lemma createOrder_nonfinite_rejected_witness :
  settled (createOrder roundTo_spec sample_polygon_contracts
             sample_amoy_contracts polygon_wallet sample_market sample_ambient
             {| params_tokenId := "1234";
                params_price := Number.of_ratio 45 100;
                params_side := BUY;
                params_size := Number.of_Z 100;
                params_expiration := Number.NaN;
                params_taker := public |}) = Err SyntaxError.
Proof.
  apply (createOrder_nonfinite_rejected roundTo_spec sample_polygon_contracts
           sample_amoy_contracts polygon_wallet sample_market sample_ambient
           {| params_tokenId := "1234";
              params_price := Number.of_ratio 45 100;
              params_side := BUY;
              params_size := Number.of_Z 100;
              params_expiration := Number.NaN;
              params_taker := public |});
    [left | ..]; vm_compute; reflexivity.
Defined.

(** ** Typed data against its schema *)

(** X9: in the typed data of an order, every member of the Order struct
    has a message value of its kind (a bigint for [uint256], the number of a
    code below 3 for [uint8], a string for [address]) and the message has no
    other key, and likewise the domain against EIP712Domain; the same holds
    of the attestation message against the ClobAuth struct. *)
Theorem typed_data_fits_schema :
  (forall P A wallet order td,
      orderTypedData P A wallet order = Ok td ->
      object_fits (struct_members "Order" td) (message td) = true /\
      object_fits (struct_members "EIP712Domain" td) (domain td) = true /\
      (exists code, field "side" (message td) = Some (VNumber (Number.of_Z code))
                    /\ 0 <= code < 2) /\
      (exists code, field "signatureType" (message td)
                    = Some (VNumber (Number.of_Z code)) /\ 0 <= code < 3)) /\
  (forall signer timestamp nonce,
      let td := clobAuthTypedData signer timestamp nonce in
      object_fits (struct_members "ClobAuth" td) (message td) = true).
Proof.
  split.
  - intros P A wallet order td Htd.
    destruct (orderTypedData_fields _ _ _ _ _ Htd)
      as (c & z1 & z2 & z3 & z4 & z5 & z6 & z7 & _ & _ & _ & _ & _ & _ & _ & _
          & Hd & Ht & Hm).
    unfold struct_members. rewrite Ht, Hd, Hm.
    split; [destruct (order_side order), (order_signatureType order); reflexivity|].
    split; [reflexivity|]. split.
    + exists (orderSideToNumber (order_side order)). split; [reflexivity|].
      destruct (order_side order); simpl; lia.
    + exists (signatureTypeToNumber (order_signatureType order)).
      split; [reflexivity|]. destruct (order_signatureType order); simpl; lia.
  - intros signer timestamp nonce. reflexivity.
Qed.

Lemma typed_data_fits_schema_witness :
  exists td,
    orderTypedData sample_polygon_contracts sample_amoy_contracts
      polygon_wallet sample_order = Ok td /\
    object_fits (struct_members "Order" td) (message td) = true.
Proof.
  eexists. split; [reflexivity|].
  exact (proj1 (proj1 typed_data_fits_schema sample_polygon_contracts
                  sample_amoy_contracts polygon_wallet sample_order _ eq_refl)).
Defined.

(** ** The wallet of a supported chain *)

(** X10: a wallet connected for "polygon" signs orders against the Polygon
    registry entry and a wallet connected for "polygon-amoy" against the
    Polygon Amoy entry, provided viem's polygon chain has the id 137 that
    [getContractForChain] tests for and its polygonAmoy chain has another. *)
Theorem connected_wallet_contract P A polygon_id polygonAmoy_id
    privateKeyToAccount walletSignTypedData privateKey chain order td :
  Number.strict_eq polygon_id (Number.of_Z 137) = true ->
  Number.strict_eq polygonAmoy_id (Number.of_Z 137) = false ->
  let wallet :=
    createConnectedWallet polygon_id polygonAmoy_id privateKeyToAccount
      walletSignTypedData privateKey chain in
  orderTypedData P A wallet order = Ok td ->
  signed_data (signOrder P A wallet order) = [td] /\
  field "verifyingContract" (domain td) =
    Some (VString (negRiskExchange
                     match chain with polygon => P | polygon_amoy => A end)).
Proof.
  intros Hp Ha wallet Htd.
  split; [exact (proj1 (signOrder_signed_data _ _ _ _ _ Htd))|].
  destruct (orderTypedData_fields _ _ _ _ _ Htd)
    as (c & z1 & z2 & z3 & z4 & z5 & z6 & z7 & _ & _ & _ & _ & _ & _ & _ & _
        & Hd & _).
  rewrite Hd. cbn [field String.eqb Ascii.eqb Bool.eqb].
  unfold getContractForChain, wallet, createConnectedWallet. cbn [chain_id].
  destruct chain; [rewrite Hp | rewrite Ha]; reflexivity.
Qed.

Lemma connected_wallet_contract_witness :
  exists td,
    field "verifyingContract" (domain td) =
      Some (VString (negRiskExchange sample_amoy_contracts)) /\
    orderTypedData sample_polygon_contracts sample_amoy_contracts
      (createConnectedWallet (Number.of_Z 137) (Number.of_Z 80002)
         (fun key => (key, None)) (fun _ => sample_signer)
         "0x01" polygon_amoy)
      sample_order = Ok td.
Proof.
  eexists. split; [|reflexivity].
  exact (proj2 (connected_wallet_contract sample_polygon_contracts
                  sample_amoy_contracts (Number.of_Z 137) (Number.of_Z 80002)
                  (fun key => (key, None)) (fun _ => sample_signer)
                  "0x01" polygon_amoy sample_order _ eq_refl eq_refl eq_refl)).
Defined.

(** ** The salt *)

Lemma to_integer_nonneg x z :
  Number.not_negative x = true -> Number.to_integer x = Some z -> 0 <= z.
Proof.
  destruct x as [s|s| |s m e]; try discriminate.
  - intros _ [= <-]. lia.
  - destruct s; [discriminate|]. intros _ Hi. unfold Number.to_integer in Hi.
    destruct (0 <=? e); [|destruct (_ =? _); [|discriminate]];
      injection Hi as <-; apply Z.shiftl_nonneg; lia.
Qed.

Lemma binary_normalize_not_negative z :
  0 <= z ->
  Number.not_negative (binary_normalize Number.prec Number.emax z 0 false) = true.
Proof. exact (of_Z_not_negative z). Qed.

Lemma round_not_negative x :
  Number.not_negative x = true -> Number.not_negative (Number.round x) = true.
Proof.
  destruct x as [s|s| |s m e]; trivial.
  destruct s; [discriminate|]. intros _. unfold Number.round.
  destruct (0 <=? e); trivial.
  apply binary_normalize_not_negative, Z.shiftl_nonneg.
  assert (0 <= 2 ^ (- e)) by (apply Z.pow_nonneg; lia). lia.
Qed.

(** The integers up to [2^53] are numbers. *)
Lemma to_integer_binary_normalize z :
  0 <= z <= 2 ^ 53 ->
  Number.to_integer (binary_normalize Number.prec Number.emax z 0 false) = Some z.
Proof.
  intros Hz. destruct z as [|p|p]; try lia; [reflexivity|].
  destruct (Z.eq_dec (Zpos p) (2 ^ 53)) as [Heq|Hne].
  - assert (p = 9007199254740992%positive) as -> by lia.
    vm_compute. reflexivity.
  - assert (Hp : Zpos p < 2 ^ 53) by lia.
    unfold binary_normalize.
    destruct (binary_round_exact false p Hp) as (m' & k & Hk & Hm' & ->).
    now apply to_integer_shifted.
Qed.

(** [Math.round] of a non-negative number below [2^53]: the integer
    [floor (x + 1/2)]. *)
Lemma round_integer x :
  Number.sign_clear x = true -> Number.below_2_53 x = true ->
  exists z q,
    Number.to_integer (Number.round x) = Some z /\ 0 <= z <= 2 ^ 53 /\
    Number.to_Q x = Some q /\
    (inject_Z z <= q + (1 # 2))%Q /\ (q + (1 # 2) < inject_Z z + 1)%Q.
Proof.
  destruct x as [s|s| |s m e]; try discriminate.
  - intros _ _. exists 0, 0%Q. repeat split; try reflexivity; try lia.
    discriminate.
  - destruct s; [discriminate|]. intros _ Hb. simpl in Hb.
    apply Z.ltb_lt in Hb.
    assert (Hnn : 0 <= Z.shiftl (Zpos m) e) by (apply Z.shiftl_nonneg; lia).
    unfold Number.round, Number.to_Q.
    destruct (0 <=? e) eqn:He.
    + exists (Z.shiftl (Zpos m) e), (inject_Z (Z.shiftl (Zpos m) e)).
      unfold Number.to_integer. rewrite He.
      repeat split; try lia;
        unfold Qle, Qlt, Qplus, inject_Z; cbn [Qnum Qden]; lia.
    + apply Z.leb_gt in He.
      set (D := 2 ^ (- e)).
      assert (HD : 0 < D) by (apply Z.pow_pos_nonneg; lia).
      assert (Hsh : Z.shiftl (Zpos m) e = Zpos m / D)
        by (rewrite Z.shiftl_div_pow2 by lia; reflexivity).
      rewrite Hsh in Hb, Hnn.
      assert (Hz : Z.shiftl (2 * Zpos m + D) (e - 1) = (2 * Zpos m + D) / (2 * D)).
      { rewrite Z.shiftl_div_pow2 by lia.
        replace (- (e - 1)) with (Z.succ (- e)) by lia.
        rewrite Z.pow_succ_r by lia. reflexivity. }
      set (z := (2 * Zpos m + D) / (2 * D)).
      pose proof (Z.div_mod (2 * Zpos m + D) (2 * D) ltac:(lia)) as Hdm.
      pose proof (Z.mod_pos_bound (2 * Zpos m + D) (2 * D) ltac:(lia)) as Hmb.
      fold z in Hdm.
      pose proof (Z.div_mod (Zpos m) D ltac:(lia)) as Hdm'.
      pose proof (Z.mod_pos_bound (Zpos m) D ltac:(lia)) as Hmb'.
      assert (Hz0 : 0 <= z) by (apply Z.div_pos; lia).
      assert (Hz1 : z <= 2 ^ 53) by nia.
      exists z, (Qmake (Zpos m) (Z.to_pos D)).
      rewrite Hz. fold z.
      split; [now apply to_integer_binary_normalize|].
      split; [lia|]. split; [reflexivity|].
      unfold Qle, Qlt, Qplus, inject_Z; cbn [Qnum Qden].
      rewrite Pos2Z.inj_mul, Z2Pos.id by lia.
      split; nia.
Qed.

(** X11: [generateSalt] throws nothing but a RangeError. When
    [Math.random()] and [Date.now()] are not negative, a salt it returns
    is not negative and prints as an unsigned integer string; and when their
    product is below 2^53, it does return a salt: the integer nearest to
    the product, a half rounding up. *)
Theorem generateSalt_nearest_integer amb :
  (forall e, generateSalt amb = Err e -> e = RangeError) /\
  (Number.not_negative (Math_random amb) = true ->
   Number.not_negative (Date_now amb) = true ->
   forall salt,
     generateSalt amb = Ok salt ->
     0 <= salt /\ is_uint_string (BigInt_toString salt) = true) /\
  (let product := Number.mul (Math_random amb) (Date_now amb) in
   Number.sign_clear product = true -> Number.below_2_53 product = true ->
   exists salt q,
     generateSalt amb = Ok salt /\ 0 <= salt <= 2 ^ 53 /\
     Number.to_Q product = Some q /\
     (inject_Z salt <= q + (1 # 2))%Q /\ (q + (1 # 2) < inject_Z salt + 1)%Q).
Proof.
  unfold generateSalt, Number.to_BigInt. split; [|split].
  - intros e. destruct (Number.to_integer _); [discriminate|]. now intros [= <-].
  - intros Hr Hn salt Hs.
    destruct (Number.to_integer _) as [z|] eqn:Hz; [|discriminate].
    injection Hs as <-.
    assert (0 <= z).
    { apply (to_integer_nonneg _ _ (round_not_negative _ (mul_not_negative _ _ Hr Hn)) Hz). }
    split; trivial.
    destruct z as [| |]; try lia; apply is_uint_string_N_toString.
  - intros Hs Hb.
    destruct (round_integer _ Hs Hb) as (z & q & Hz & Hr & Hq & Hle & Hlt).
    exists z, q. rewrite Hz. repeat split; trivial; lia.
Qed.

Lemma generateSalt_nearest_integer_witness :
  exists salt q,
    generateSalt sample_ambient = Ok salt /\ 0 <= salt <= 2 ^ 53 /\
    Number.to_Q (Number.mul (Math_random sample_ambient) (Date_now sample_ambient))
      = Some q /\
    (inject_Z salt <= q + (1 # 2))%Q /\ (q + (1 # 2) < inject_Z salt + 1)%Q.
Proof.
  apply (proj2 (proj2 (generateSalt_nearest_integer sample_ambient)));
    vm_compute; reflexivity.
Defined.

(** ** Orders of the data model *)

(** Both raw amounts are digit strings when the price and the size are
    positive and the scaled values stay below [2^53]. *)
Lemma raw_amounts_uint_strings roundTo size price tickSize :
  (forall x d, Number.not_negative x = true ->
               Number.not_negative (roundTo x d) = true) ->
  positive_number price = true -> positive_number size = true ->
  Number.below_2_53 (sharesScaled roundTo size) = true ->
  Number.below_2_53 (costScaled roundTo size price tickSize) = true ->
  is_uint_string (sharesRaw roundTo size) = true /\
  is_uint_string (costRaw roundTo size price tickSize) = true.
Proof.
  intros Hround Hprice Hsize Hs Hc.
  apply positive_number_not_negative in Hprice, Hsize.
  assert (Hshares : Number.sign_clear (sharesScaled roundTo size) = true).
  { apply not_negative_below_2_53; trivial.
    apply mul_not_negative; [now apply Hround | apply pow10_not_negative]. }
  assert (Hcost : Number.sign_clear (costScaled roundTo size price tickSize) = true).
  { apply not_negative_below_2_53; trivial.
    apply mul_not_negative; [|apply pow10_not_negative].
    apply Hround, mul_not_negative; now apply Hround. }
  destruct (floor_toString _ Hshares Hs) as (ns & qs & Hns & _ & _).
  destruct (floor_toString _ Hcost Hc) as (nc & qc & Hnc & _ & _).
  unfold sharesRaw, costRaw. rewrite Hns, Hnc.
  split; apply is_uint_string_N_toString.
Qed.

Lemma is_uint_string_BigInt_toString z :
  0 <= z -> is_uint_string (BigInt_toString z) = true.
Proof. destruct z; try lia; intros _; apply is_uint_string_N_toString. Qed.

(** X12: for input in its intended range [createOrder] always reaches the
    signer, and with an order of the data model. When the three reads
    fulfil with a non-negative nonce and an integer fee rate, the token id
    is an unsigned integer string, the expiration is a non-negative integer,
    price and size are positive with scaled amounts below 2^53, the salt
    product is below 2^53 and the chain id is an integer, every amount and
    id field of the order built is an unsigned integer string, the signer
    is called with its typed data, and the outcome is the signer's. *)
Theorem createOrder_reaches_signer roundTo P A wallet market amb params
    t f n zf ze :
  (forall x d, Number.not_negative x = true ->
               Number.not_negative (roundTo x d) = true) ->
  getTickSize market (params_tokenId params) = Ok t ->
  getFeeRateBps market (params_tokenId params) = Ok f ->
  getNonce wallet = Ok n -> 0 <= n ->
  Number.sign_clear f = true -> Number.to_integer f = Some zf -> zf < 2 ^ 53 ->
  Number.sign_clear (params_expiration params) = true ->
  Number.to_integer (params_expiration params) = Some ze -> ze < 2 ^ 53 ->
  is_uint_string (params_tokenId params) = true ->
  positive_number (params_price params) = true ->
  positive_number (params_size params) = true ->
  Number.below_2_53 (sharesScaled roundTo (params_size params)) = true ->
  Number.below_2_53
    (costScaled roundTo (params_size params) (params_price params) t) = true ->
  Number.sign_clear (Number.mul (Math_random amb) (Date_now amb)) = true ->
  Number.below_2_53 (Number.mul (Math_random amb) (Date_now amb)) = true ->
  is_ok (Number.to_BigInt (chain_id wallet)) = true ->
  let run := createOrder roundTo P A wallet market amb params in
  exists salt td,
    generateSalt amb = Ok salt /\
    let order := buildOrder roundTo wallet params t f n salt in
    Order_wf order = true /\
    orderTypedData P A wallet order = Ok td /\
    signed_data run = [td] /\
    settled run =
      match signTypedData wallet td with
      | Ok signature =>
          Ok {| signed_order := order; signed_signature := signature |}
      | Err e => Err e
      end.
Proof.
  intros Hround Ht Hf Hn Hn0 Hsf Hif Hzf Hse Hie Hze Htok Hprice Hsize Hs Hc
    Hps Hpb Hchain run.
  destruct (round_integer _ Hps Hpb) as (salt & q & Hsalt & Hsr & _).
  assert (Hgen : generateSalt amb = Ok salt)
    by (unfold generateSalt, Number.to_BigInt; now rewrite Hsalt).
  destruct (raw_amounts_uint_strings roundTo _ _ t Hround Hprice Hsize Hs Hc)
    as [Hus Huc].
  destruct (Number_toString_integer _ _ Hsf Hif Hzf) as [_ Hfs].
  destruct (Number_toString_integer _ _ Hse Hie Hze) as [_ Hes].
  assert (Hwf : Order_wf (buildOrder roundTo wallet params t f n salt) = true).
  { unfold Order_wf, numeric_fields.
    cbn [forallb snd buildOrder order_salt order_tokenId order_makerAmount
           order_takerAmount order_expiration order_nonce order_feeRateBps].
    rewrite Hfs, Hes, Htok, !is_uint_string_N_toString,
      !is_uint_string_BigInt_toString by lia.
    unfold calculateOrderAmounts.
    destruct (params_side params); cbn [amounts_maker amounts_taker];
      now rewrite Hus, Huc. }
  destruct (orderTypedData_defined P A wallet _ Hwf Hchain) as [td Htd].
  exists salt, td. split; [exact Hgen|]. cbv zeta.
  split; [exact Hwf|]. split; [exact Htd|].
  subst run.
  rewrite (createOrder_run roundTo P A wallet market amb params t f n salt
             Ht Hf Hn Hgen).
  cbv zeta. rewrite Htd. split; reflexivity.
Qed.

Lemma createOrder_reaches_signer_witness :
  exists salt td,
    generateSalt sample_ambient = Ok salt /\
    Order_wf (buildOrder roundTo_spec polygon_wallet sample_params "0.01"
                Number.zero 7 salt) = true /\
    signed_data (createOrder roundTo_spec sample_polygon_contracts
                   sample_amoy_contracts polygon_wallet sample_market
                   sample_ambient sample_params) = [td].
Proof.
  assert (H : exists salt td,
             generateSalt sample_ambient = Ok salt /\
             let order := buildOrder roundTo_spec polygon_wallet sample_params
                            "0.01" Number.zero 7 salt in
             Order_wf order = true /\
             orderTypedData sample_polygon_contracts sample_amoy_contracts
               polygon_wallet order = Ok td /\
             signed_data (createOrder roundTo_spec sample_polygon_contracts
                            sample_amoy_contracts polygon_wallet sample_market
                            sample_ambient sample_params) = [td] /\
             settled (createOrder roundTo_spec sample_polygon_contracts
                        sample_amoy_contracts polygon_wallet sample_market
                        sample_ambient sample_params) =
               match signTypedData polygon_wallet td with
               | Ok signature =>
                   Ok {| signed_order := order; signed_signature := signature |}
               | Err e => Err e
               end).
  { apply (createOrder_reaches_signer roundTo_spec sample_polygon_contracts
             sample_amoy_contracts polygon_wallet sample_market sample_ambient
             sample_params "0.01" Number.zero 7 0 0 roundTo_spec_not_negative);
      try (vm_compute; reflexivity); vm_compute; discriminate. }
  destruct H as (salt & td & Hs & Hwf & _ & Hlog & _).
  exists salt, td. repeat split; assumption.
Defined.

(** ** Listing all markets *)

Section ListAll.

Context {W MarketData : Type}.
Variable client : Transport W (ListMarketsResponse MarketData).

Lemma listAll_loop_listed fuel : forall markets cursor w w' result,
  listAll_loop fuel client markets cursor w = Some (w', Ok result) ->
  exists pages,
    listed client w cursor pages w' /\
    result = (markets ++ List.concat (map data pages))%list /\
    (List.length pages <= fuel)%nat.
Proof.
  induction fuel as [|fuel IH]; intros markets cursor w w' result; [discriminate|].
  cbn [listAll_loop].
  destruct (MarketRequests_list client cursor w) as [w1 [response|e]] eqn:Hl;
    [|discriminate].
  destruct (truthy (next_cursor response)) eqn:Ht.
  - intros H. destruct (IH _ _ _ _ _ H) as (pages & Hp & -> & Hlen).
    exists (response :: pages). split; [|split].
    + now apply listed_more with (w1 := w1).
    + cbn [map List.concat]. now rewrite app_assoc.
    + simpl. lia.
  - intros [= <- <-]. exists [response]. split; [|split].
    + now apply listed_last.
    + cbn [map List.concat]. now rewrite app_nil_r.
    + simpl. lia.
Qed.

Lemma listed_listAll_loop w cursor pages w' :
  listed client w cursor pages w' ->
  forall fuel markets,
    (List.length pages <= fuel)%nat ->
    listAll_loop fuel client markets cursor w =
      Some (w', Ok (markets ++ List.concat (map data pages))%list).
Proof.
  induction 1 as [w cursor response w' Hl Ht
                 |w cursor response w1 responses w' Hl Ht _ IH];
    intros [|fuel] markets Hlen; simpl in Hlen; try lia;
    cbn [listAll_loop]; rewrite Hl, Ht.
  - cbn [map List.concat]. now rewrite app_nil_r.
  - rewrite IH by lia. cbn [map List.concat]. now rewrite app_assoc.
Qed.

(** X13: [listAll] returns exactly the markets of the pages it fetched, in
    page order. It asks for the first page without a cursor and for each
    further page with the cursor of the page before, and the page that
    comes with no cursor, or with an empty one, is the last: whenever such
    a chain of pages is there, [listAll] returns their markets. *)
Theorem listAll_pages w :
  (forall fuel w' markets,
      MarketRequests_listAll fuel client w = Some (w', Ok markets) ->
      exists pages,
        listed client w None pages w' /\
        markets = List.concat (map data pages) /\
        (List.length pages <= fuel)%nat) /\
  (forall pages w',
      listed client w None pages w' ->
      forall fuel,
        (List.length pages <= fuel)%nat ->
        MarketRequests_listAll fuel client w =
          Some (w', Ok (List.concat (map data pages)))).
Proof.
  unfold MarketRequests_listAll. split.
  - intros fuel w' markets H.
    destruct (listAll_loop_listed _ _ _ _ _ _ H) as (pages & Hp & -> & Hlen).
    now exists pages.
  - intros pages w' Hp fuel Hlen.
    now rewrite (listed_listAll_loop _ _ _ _ Hp fuel [] Hlen).
Qed.

Lemma listAll_loop_refused fuel : forall markets cursor w w' e,
  listAll_loop fuel client markets cursor w = Some (w', Err e) ->
  refused client w cursor e w'.
Proof.
  induction fuel as [|fuel IH]; intros markets cursor w w' e; [discriminate|].
  cbn [listAll_loop].
  destruct (MarketRequests_list client cursor w) as [w1 [response|e1]] eqn:Hl.
  - destruct (truthy (next_cursor response)) eqn:Ht; [|discriminate].
    intros H. apply refused_later with (response := response) (w1 := w1); trivial.
    now apply (IH _ _ _ _ _ H).
  - intros [= <- <-]. now apply refused_now.
Qed.

Lemma refused_listAll_loop w cursor e w' :
  refused client w cursor e w' ->
  exists pages_fetched,
    forall fuel markets,
      (pages_fetched < fuel)%nat ->
      listAll_loop fuel client markets cursor w = Some (w', Err e).
Proof.
  induction 1 as [w cursor e w' Hl
                 |w cursor response w1 e w' Hl Ht _ [k IH]].
  - exists 0%nat. intros [|fuel] markets Hlen; [lia|].
    cbn [listAll_loop]. now rewrite Hl.
  - exists (S k). intros [|fuel] markets Hlen; [lia|].
    cbn [listAll_loop]. rewrite Hl, Ht. apply IH. lia.
Qed.

(** X14: [listAll] rejects exactly when one of its page requests is
    refused, after pages that each came with a cursor, and with the reason
    of that request; the markets of the pages fetched before are not
    returned. *)
Theorem listAll_refused w e w' :
  (exists fuel, MarketRequests_listAll fuel client w = Some (w', Err e)) <->
  refused client w None e w'.
Proof.
  unfold MarketRequests_listAll. split.
  - intros [fuel H]. now apply (listAll_loop_refused _ _ _ _ _ _ H).
  - intros H. destruct (refused_listAll_loop _ _ _ _ H) as [k Hk].
    exists (S k). apply Hk. lia.
Qed.

(** X15: [listAll] has no bound on the pages it fetches: against a server
    that answers every request with a non-empty cursor it never returns,
    however many pages it is given time for. *)
Theorem listAll_endless :
  (forall w cursor, exists w' response,
      MarketRequests_list client cursor w = (w', Ok response) /\
      truthy (next_cursor response) = true) ->
  forall fuel w, MarketRequests_listAll fuel client w = None.
Proof.
  intros Hmore fuel. unfold MarketRequests_listAll.
  generalize (@nil MarketData) as markets, (@None string) as cursor.
  induction fuel as [|fuel IH]; intros markets cursor w; [reflexivity|].
  cbn [listAll_loop].
  destruct (Hmore w cursor) as (w' & response & -> & ->). apply IH.
Qed.

End ListAll.

Lemma listAll_pages_witness :
  MarketRequests_listAll 5 two_page_client 0%nat = Some (2%nat, Ok [1; 2; 3]%nat).
Proof.
  apply (proj2 (listAll_pages two_page_client 0%nat)
           [ {| data := [1; 2]%nat; next_cursor := Some "page2";
                limit := Number.of_Z 2; count := Number.of_Z 2 |};
             {| data := [3]%nat; next_cursor := Some "";
                limit := Number.of_Z 2; count := Number.of_Z 1 |} ]
           2%nat).
  - eapply listed_more; [reflexivity | reflexivity |].
    apply listed_last; reflexivity.
  - simpl. lia.
Defined.

Lemma listAll_refused_witness :
  refused refusing_client 0%nat None (Rejected "too many requests") 2%nat.
Proof.
  apply (proj1 (listAll_refused refusing_client 0%nat
                  (Rejected "too many requests") 2%nat)).
  exists 2%nat. reflexivity.
Defined.

Lemma listAll_endless_witness :
  MarketRequests_listAll 1000 endless_client 0%nat = None.
Proof.
  apply (listAll_endless endless_client). intros w cursor.
  eexists. eexists. split; reflexivity.
Defined.

(** ** Creating and posting *)

(** X16: [createAndPostOrder] posts only what has been signed. If
    [createOrder] rejects, because a read rejected, a field could not be
    converted or the signer refused, it rejects with the same reason and
    sends no request; if [createOrder] fulfils, it sends one request, POST
    /order with L2 authentication, whose body and header arguments are the
    signed order, carrying the signature the signer gave for the typed data
    of that order, and settles as that request does. *)
Theorem createAndPostOrder_signs_then_posts {W} roundTo P A wallet market amb
    (client : Transport W OrderResponse) params w :
  let created := createOrder roundTo P A wallet market amb params in
  let run := createAndPostOrder roundTo P A wallet market amb client params w in
  fst run = signed_data created /\
  (forall e, settled created = Err e -> snd run = (w, Err e)) /\
  (forall so,
      settled created = Ok so ->
      exists td,
        fst run = [td] /\
        orderTypedData P A wallet (signed_order so) = Ok td /\
        signTypedData wallet td = Ok (signed_signature so) /\
        snd run =
          client w
            {| req_method := POST;
               req_path := "/order";
               req_auth :=
                 {| auth_kind := kind_l2;
                    auth_headerArgs :=
                      Some {| deferExec := false; headerArgs_order := so |} |};
               req_params := [];
               req_body := Some (body_order so) |}).
Proof.
  intros created run.
  assert (Hfst : fst run = signed_data created).
  { subst run created. unfold createAndPostOrder, signed_data.
    destruct (createOrder _ _ _ _ _ _ _) as [log [so|e]]; reflexivity. }
  split; [exact Hfst|]. split.
  - intros e He. subst run created. unfold createAndPostOrder, settled in *.
    destruct (createOrder _ _ _ _ _ _ _) as [log [so|e']]; cbn in *;
      [discriminate | now injection He as ->].
  - intros so Hso.
    destruct (createOrder_fulfilled _ _ _ _ _ _ _ _ Hso)
      as (t & f & n & salt & td & _ & _ & _ & _ & Htd & Hlog & Hsig & Ho).
    exists td. rewrite Hfst. fold created in Hlog.
    split; [exact Hlog|]. split; [now rewrite Ho|]. split; [exact Hsig|].
    subst run created. unfold createAndPostOrder, settled in *.
    destruct (createOrder _ _ _ _ _ _ _) as [log [so'|e']]; cbn in *;
      [|discriminate].
    now injection Hso as ->.
Qed.

Lemma createAndPostOrder_signs_then_posts_witness :
  exists request,
    fst (snd (createAndPostOrder roundTo_spec sample_polygon_contracts
                sample_amoy_contracts polygon_wallet sample_market
                sample_ambient recording_client sample_params [])) = [request] /\
    req_method request = POST /\ req_path request = "/order" /\
    snd (snd (createAndPostOrder roundTo_spec sample_polygon_contracts
                sample_amoy_contracts failing_wallet sample_market
                sample_ambient recording_client sample_params []))
      = Err (Rejected "user rejected the request") /\
    fst (snd (createAndPostOrder roundTo_spec sample_polygon_contracts
                sample_amoy_contracts failing_wallet sample_market
                sample_ambient recording_client sample_params [])) = [].
Proof.
  assert (Hrun : settled (createOrder roundTo_spec sample_polygon_contracts
                            sample_amoy_contracts polygon_wallet sample_market
                            sample_ambient sample_params) = Ok _)
    by (vm_compute; reflexivity).
  destruct (proj2 (proj2 (createAndPostOrder_signs_then_posts roundTo_spec
                            sample_polygon_contracts sample_amoy_contracts
                            polygon_wallet sample_market sample_ambient
                            recording_client sample_params [])) _ Hrun)
    as (td & _ & _ & _ & Hpost).
  assert (Hrej : settled (createOrder roundTo_spec sample_polygon_contracts
                            sample_amoy_contracts failing_wallet sample_market
                            sample_ambient sample_params)
                 = Err (Rejected "user rejected the request"))
    by (vm_compute; reflexivity).
  pose proof (proj1 (proj2 (createAndPostOrder_signs_then_posts roundTo_spec
                              sample_polygon_contracts sample_amoy_contracts
                              failing_wallet sample_market sample_ambient
                              recording_client sample_params [])) _ Hrej)
    as Hnone.
  eexists. rewrite Hpost, Hnone. repeat split.
Defined.
